(** * quetvideo: the yt-dlp API server ([src/server.js])

    A shallow embedding of the request handlers of [server.js] and of the
    periodic sweep of the downloads directory, with the properties the
    specification states about them.

    What the handlers get from their environment is an explicit argument:
    the clock ([Date.now()]), the random suffix of a job id, the events the
    child process emits, and the file system as it is when the handler
    looks at it. *)

From Stdlib Require Import Strings.Ascii.
From stdpp Require Import base gmap list strings pretty fin_sets.

Local Open Scope Z_scope.

(** ** JavaScript values *)

(** JSON values, as [JSON.parse] yields them and [res.json] sends them.
    This program only copies numbers, it never computes with them: a
    number is kept as its literal. The fields of an object have distinct
    keys. *)
#[warnings="-register-all"]
Inductive json :=
| JNull
| JBool (b : bool)
| JNum (literal : string)
| JStr (s : string)
| JArr (items : list json)
| JObj (fields : list (string * json)).

(** An object literal whose property values may be [undefined] ([None]):
    [JSON.stringify] leaves such properties out. *)
Definition obj (props : list (string * option json)) : json :=
  JObj (omap (λ kv, pair kv.1 <$> kv.2) props).

Definition keys (fields : list (string * json)) : list string := fields.*1.

Fixpoint assoc (k : string) (fields : list (string * json)) : option json :=
  match fields with
  | [] => None
  | (k', v) :: rest => if decide (k = k') then Some v else assoc k rest
  end.

(** [s.startsWith(p)] *)
Definition startsWith (s p : string) : bool := String.prefix p s.

(** [!v] for a value that is a string or [undefined]. *)
Definition falsy (v : option string) : bool :=
  match v with
  | None => true
  | Some s => bool_decide (s = "")
  end.

(** The value when it is truthy. *)
Definition truthy (v : option string) : option string :=
  if falsy v then None else v.

(** [a || b] on strings. *)
Definition or_else (a b : string) : string := if falsy (Some a) then b else a.

(** A destructuring default, [{ format = 'mp4' }]: used for [undefined] only. *)
Definition default_to (d : string) (v : option string) : string := default d v.

(** ** Paths ([path.join] on POSIX) *)

Module Path.

(** An absolute path: its segments below the root, and whether it was
    written with a trailing slash (then it can only name a directory). *)
Record t := Make { segs : list string; dir_only : bool }.

Fixpoint split (s : string) : list string :=
  match s with
  | EmptyString => [EmptyString]
  | String c rest =>
      if decide (c = "/"%char) then EmptyString :: split rest
      else match split rest with
           | seg :: more => String c seg :: more
           | [] => [String c EmptyString]
           end
  end.

(** One segment of [normalizeString]: empty and [.] segments go, [..]
    drops the segment before it (and stays at the root). *)
Definition push (stack : list string) (seg : string) : list string :=
  if decide (seg = "" ∨ seg = ".") then stack
  else if decide (seg = "..") then tail stack
  else seg :: stack.

Definition normalize (l : list string) : list string :=
  reverse (foldl push [] l).

(** [path.join(p, name)] *)
Definition join (p : t) (name : string) : t :=
  if decide (name = "") then Make (normalize (segs p)) (dir_only p)
  else
    let rest := split name in
    let out := normalize (segs p ++ rest) in
    Make out (bool_decide (last rest = Some "" ∧ out ≠ [])).

(** The path as the string the child process is given. *)
Definition render (p : t) : string :=
  match segs p with
  | [] => "/"
  | _ => foldr (λ seg acc, "/" +:+ seg +:+ acc) (if dir_only p then "/" else "") (segs p)
  end.

(** A name a directory entry can have. *)
Definition valid_name (n : string) : bool :=
  bool_decide (split n = [n] ∧ n ≠ "" ∧ n ≠ "." ∧ n ≠ "..").

(** The entry [name] of the directory [d], when [k] is that. *)
Definition child_of (d k : list string) : option string :=
  match k with
  | [] => None
  | _ =>
      let n := default "" (last k) in
      if bool_decide (k = d ++ [n]) && valid_name n then Some n else None
  end.

End Path.

(** ** Requests, child processes and replies *)

(** The JSON body of a POST request. The API takes strings; a property
    that is absent is [None]. *)
Record body := Body {
  url : option string;
  format : option string;
  quality : option string }.

(** [req.protocol] and [req.get('host')] beside the body. *)
Record request := Request {
  req_body : body;
  protocol : string;
  host : string }.

(** How a child process is started: [exec(cmd)] hands one command line to
    the shell, [spawn(file, args)] passes the argument vector as it is. *)
Inductive launch :=
| Exec (cmd : string)
| Spawn (file : string) (args : list string).

(** What a handler can be told while its child runs. The first four are
    the events of the [ChildProcess] ([stdout] data, [stderr] data,
    [close], [error]); [code] is [None] when the child was ended by a
    signal. [ClientGone] is the [close] of the request: the caller has
    disconnected. *)
Inductive event :=
| StdoutData (data : string)
| StderrData (data : string)
| ChildClose (code : option Z)
| ChildError (message : string)
| ClientGone.

(** What a handler does to the response and to its child. *)
Inductive effect :=
| ResWrite (frame : json)      (* res.write(`data: ${JSON.stringify(frame)}\n\n`) *)
| ResEnd                       (* res.end() *)
| ChildKill.                     (* child.kill() *)

Inductive reply :=
| Json (status : Z) (payload : json)     (* res.status(status).json(payload) *)
| Attachment (name : string) (data : string)   (* res.download(path, name) *)
| Stream (log : list effect)             (* an event stream *)
| NoReply.                               (* the handler never answers *)

Record outcome := Outcome {
  launched : list launch;      (* child processes started, in order *)
  job : option string;         (* the job id, once one is made *)
  answer : reply;
  uncaught : option string }.  (* an error nothing catches *)

(** [`${code}`] *)
Definition code_text (code : option Z) : string :=
  match code with
  | Some c => pretty c
  | None => "null"
  end.

Definition dquote : string := String (ascii_of_nat 34) EmptyString.

Definition url_required : reply :=
  Json 400 (obj [("success", Some (JBool false)); ("error", Some (JStr "URL is required"))]).

(** *** Evaluation that may throw *)

Inductive thrown (A : Type) :=
| Ok (a : A)
| Throw (message : string).
Arguments Ok {A} a.
Arguments Throw {A} message.

Global Instance thrown_ret : MRet thrown := λ A, Ok.
Global Instance thrown_bind : MBind thrown := λ A B f m,
  match m with
  | Ok a => f a
  | Throw message => Throw message
  end.
Global Instance thrown_fmap : FMap thrown := λ A B f m,
  match m with
  | Ok a => Ok (f a)
  | Throw message => Throw message
  end.

(** [v.k] on a JSON value: [null] has no properties, and of the other
    values only objects have the properties this program reads. *)
Definition prop (v : json) (k : string) : thrown (option json) :=
  match v with
  | JNull => Throw ("Cannot read properties of null (reading '" +:+ k +:+ "')")
  | JObj fields => Ok (assoc k fields)
  | _ => Ok None
  end.

(** *** The promise around a child process (download, download-audio) *)

Inductive settlement :=
| Resolved
| Rejected (message : string).

Record waiting := Waiting {
  stderr : string;
  settled : option settlement }.

(** [resolve()] and [reject(e)]: only the first call counts. *)
Definition settle (w : waiting) (s : settlement) : waiting :=
  match settled w with
  | Some _ => w
  | None => Waiting (stderr w) (Some s)
  end.

Definition on_child_event (w : waiting) (e : event) : waiting :=
  match e with
  | StderrData data => Waiting (stderr w +:+ data) (settled w)
  | StdoutData _ => w
  | ChildClose code =>
      if decide (code = Some 0) then settle w Resolved
      else settle w (Rejected (or_else (stderr w)
                                 ("Process exited with code " +:+ code_text code)))
  | ChildError message => settle w (Rejected message)
  | ClientGone => w
  end.

Definition await_child (trace : list event) : waiting :=
  foldl on_child_event (Waiting "" None) trace.

(** ** The file system *)

(** A regular file: the time of its last modification, in whole
    milliseconds, and the bytes it holds. *)
Record file := File { mtimeMs : Z; content : string }.

Global Instance file_eq_dec : EqDecision file.
Proof. solve_decision. Defined.

(** A directory: the time of its last modification and the size that
    [stat] reports for it. *)
Record directory := Directory { dir_mtimeMs : Z; dir_size : Z }.

Inductive node :=
| Regular (f : file)
| Folder (d : directory).

(** The nodes of the file system, by absolute path. A directory is a
    node of its own: the files below it do not make it. In a file system
    as the server can meet it, the parent of every node is a directory
    ([well_formed], below). *)
Record filesystem := FileSystem { nodes : gmap (list string) node }.

(** [fs !! k] is the regular file at [k], [<[k := f]> fs] puts the
    regular file [f] at [k], and [delete k fs] takes away the node at
    [k]. *)
Global Instance filesystem_lookup : Lookup (list string) file filesystem := λ k fs,
  match nodes fs !! k with
  | Some (Regular f) => Some f
  | _ => None
  end.

Global Instance filesystem_insert : Insert (list string) file filesystem := λ k f fs,
  FileSystem (<[k := Regular f]> (nodes fs)).

Global Instance filesystem_delete : Delete (list string) filesystem := λ k fs,
  FileSystem (delete k (nodes fs)).

Global Instance filesystem_empty : Empty filesystem := FileSystem ∅.

(** The file system with the directory [d] at [k]. *)
Definition mkdir (k : list string) (d : directory) (fs : filesystem) : filesystem :=
  FileSystem (<[k := Folder d]> (nodes fs)).

(** [stat.mtimeMs] and [stat.size] *)
Definition node_mtimeMs (n : node) : Z :=
  match n with
  | Regular f => mtimeMs f
  | Folder d => dir_mtimeMs d
  end.

Definition stat_size (n : node) : Z :=
  match n with
  | Regular f => Z.of_nat (String.length (content f))
  | Folder d => dir_size d
  end.

(** The messages of the errors of [fs]. *)
Definition ENOENT (syscall : string) (p : Path.t) : string :=
  "ENOENT: no such file or directory, " +:+ syscall +:+ " '" +:+ Path.render p +:+ "'".

Definition EISDIR (syscall : string) (p : Path.t) : string :=
  "EISDIR: illegal operation on a directory, " +:+ syscall +:+ " '" +:+ Path.render p +:+ "'".

(** [list.forEach(f)] for a callback that updates the file system: the
    file system it leaves and, when the callback threw, the error. The
    loop ends at the first call that throws, and the elements after it
    are not visited. *)
Fixpoint forEach {A S : Type} (f : S → A → thrown S) (s : S) (l : list A)
    : S * option string :=
  match l with
  | [] => (s, None)
  | x :: rest =>
      match f s x with
      | Ok s' => forEach f s' rest
      | Throw message => (s, Some message)
      end
  end.

(** [child_process.exec], promisified: the command failed ([ExecError],
    with the message of the error), or it ended well and [JSON.parse] made
    [parsed] of what it wrote to stdout (a [SyntaxError] when that is not
    JSON). *)
Inductive exec_result :=
| ExecError (message : string)
| ExecOk (parsed : thrown json).

(** One element of [info.formats], reduced. *)
Definition format_descriptor (f : json) : thrown json :=
  format_id ← prop f "format_id";
  ext ← prop f "ext";
  resolution ← prop f "resolution";
  filesize ← prop f "filesize";
  mret (obj [("format_id", format_id); ("ext", ext);
             ("resolution", resolution); ("filesize", filesize)]).

(** [formats?.map(f => ...) || []] *)
Definition formats_of (formats : option json) : thrown json :=
  match formats with
  | None | Some JNull => Ok (JArr [])
  | Some (JArr items) => JArr <$> mapM format_descriptor items
  | Some _ => Throw "info.formats?.map is not a function"
  end.

(** The [data] of the answer to an info query. *)
Definition info_data (info : json) : thrown json :=
  title ← prop info "title";
  duration ← prop info "duration";
  thumbnail ← prop info "thumbnail";
  description ← prop info "description";
  uploader ← prop info "uploader";
  upload_date ← prop info "upload_date";
  view_count ← prop info "view_count";
  formats ← prop info "formats" ≫= formats_of;
  mret (obj [("title", title); ("duration", duration);
             ("thumbnail", thumbnail); ("description", description);
             ("uploader", uploader); ("upload_date", upload_date);
             ("view_count", view_count); ("formats", Some formats)]).

(** *** The relay of a streamed download *)

Record relay := Relay {
  log : list effect;
  ended : bool;
  escaped : option string }.

Definition stopped (r : relay) : bool := ended r || bool_decide (is_Some (escaped r)).

Definition write (r : relay) (frame : json) : relay :=
  Relay (log r ++ [ResWrite frame]) (ended r) (escaped r).

Definition progress_frame (output : string) : json :=
  obj [("type", Some (JStr "progress")); ("message", Some (JStr output))].

Definition log_frame (output : string) : json :=
  obj [("type", Some (JStr "log")); ("message", Some (JStr output))].

Definition complete_frame (fileName downloadUrl : string) : json :=
  obj [("type", Some (JStr "complete")); ("success", Some (JBool true));
       ("fileName", Some (JStr fileName)); ("downloadUrl", Some (JStr downloadUrl))].

Definition error_frame (message : string) : json :=
  obj [("type", Some (JStr "error")); ("message", Some (JStr message))].

(** ** Vocabulary of the properties *)

(** Events of a child that is running: output, and a caller going away. *)
Definition running (e : event) : bool :=
  match e with
  | StdoutData _ | StderrData _ | ClientGone => true
  | ChildClose _ | ChildError _ => false
  end.

(** All that the child wrote to stderr, in order. *)
Fixpoint stderr_of (trace : list event) : string :=
  match trace with
  | [] => ""
  | StderrData data :: rest => data +:+ stderr_of rest
  | _ :: rest => stderr_of rest
  end.

(** The output of the child as the relay forwards it. *)
Fixpoint relayed (trace : list event) : list effect :=
  match trace with
  | [] => []
  | StdoutData output :: rest => ResWrite (progress_frame output) :: relayed rest
  | StderrData output :: rest => ResWrite (log_frame output) :: relayed rest
  | _ :: rest => relayed rest
  end.

(** The [type] of a frame of the event stream. *)
Definition frame_type (frame : json) : option string :=
  match frame with
  | JObj fields =>
      match assoc "type" fields with
      | Some (JStr t) => Some t
      | _ => None
      end
  | _ => None
  end.

(** A terminal event: [complete] or [error]. *)
Definition terminal (x : effect) : bool :=
  match x with
  | ResWrite frame =>
      bool_decide (frame_type frame = Some "complete" ∨ frame_type frame = Some "error")
  | _ => false
  end.

Definition string_field (k : string) (v : json) : option string :=
  match v with
  | JObj fields =>
      match assoc k fields with
      | Some (JStr s) => Some s
      | _ => None
      end
  | _ => None
  end.

(** The [fileName] of a [complete] event. *)
Definition complete_file (x : effect) : option string :=
  match x with
  | ResWrite frame =>
      if decide (frame_type frame = Some "complete")
      then string_field "fileName" frame else None
  | _ => None
  end.

(** The file name a successful job reports: the [fileName] of the JSON
    answer, or of the [complete] event of a stream. *)
Definition reported_file (a : reply) : option string :=
  match a with
  | Json status payload =>
      if decide (status = 200) then string_field "fileName" payload else None
  | Stream log => head (omap complete_file log)
  | _ => None
  end.

(** What a handler did to its response stream and to its child. *)
Definition effects (a : reply) : list effect :=
  match a with
  | Stream log => log
  | _ => []
  end.

Definition gone (e : event) : bool :=
  match e with
  | ClientGone => true
  | _ => false
  end.

(** The own properties of a JSON value that is not [null]. *)
Definition own (v : json) (k : string) : option json :=
  match v with
  | JObj fields => assoc k fields
  | _ => None
  end.

(** The object literal that copies the properties [names] of [v]. *)
Definition project (names : list string) (v : json) : list (string * option json) :=
  (λ k, (k, own v k)) <$> names.

(** The keys of the answer to an info query, as the handler lists them,
    and those of a format descriptor. *)
Definition scalar_fields : list string :=
  ["title"; "duration"; "thumbnail"; "description"; "uploader";
   "upload_date"; "view_count"].

Definition info_fields : list string := scalar_fields ++ ["formats"].

Definition descriptor_fields : list string :=
  ["format_id"; "ext"; "resolution"; "filesize"].

(** The fields of an info answer as the specification lists them. *)
Definition spec_info_fields : list string :=
  ["title"; "duration"; "thumbnail"; "uploader"; "upload_date"; "view_count"; "formats"].

(** A format descriptor: the four properties of [f] that are kept. *)
Definition reduced (f : json) : json := obj (project descriptor_fields f).

(** The elements of [info.formats], when that is an array. *)
Definition formats_list (info : json) : list json :=
  match own info "formats" with
  | Some (JArr items) => items
  | _ => []
  end.

(** The keys of the [data] of a JSON answer. *)
Definition data_keys (a : reply) : list string :=
  match a with
  | Json _ (JObj payload) =>
      match assoc "data" payload with
      | Some (JObj fields) => keys fields
      | _ => []
      end
  | _ => []
  end.

(** The child is started with an argument vector that has [url] as one of
    its elements. *)
Definition literal_argv (url : string) (l : launch) : Prop :=
  ∃ file args, l = Spawn file args ∧ url ∈ args.

(** The failure an answer reports has the text [text]: the error of a
    JSON answer of status 500, or the [error] event of a stream. *)
Definition fails_with (text : string) (a : reply) : Prop :=
  match a with
  | Json status payload => status = 500 ∧ string_field "error" payload = Some text
  | Stream log => ResWrite (error_frame text) ∈ log
  | _ => False
  end.

(** ** A deployment and a request, for the examples *)

(** The image of the Dockerfile installs [server.js] in [/app]. *)
Definition app : Path.t := Path.Make ["app"] false.

Definition a_request : request :=
  Request (Body (Some "https://example.com/watch?v=1") None None) "http" "localhost:3000".

Definition no_url : request := Request (Body None None None) "http" "localhost:3000".

Definition a_time : Z := 1700007200001.

Definition a_suffix : string := "k3j9x0a1b".

(** Two stored files: the first was last modified two hours and one
    millisecond before [a_time], the second exactly two hours before. *)
Definition a_store : filesystem :=
  <[ ["app"; "downloads"; "audio_1700000000000_zzzzzzzzz.mp3"] := File 1700000000000 "ID3" ]>
  (<[ ["app"; "downloads"; "video_1700007200001_k3j9x0a1b.mp4"] := File 1700000000001 "ftyp" ]> ∅).

(** A store with a directory among its entries, as a video download
    with the format [mp4/mkv] leaves one: the output path of that job is
    [video_1699991000000_q1w2e3r4t.mp4/mkv], and yt-dlp makes the
    directory for it. The directory, the file in it and the file beside
    it are older than two hours at [a_time]. *)
Definition a_store_with_folder : filesystem :=
  mkdir ["app"; "downloads"; "video_1699991000000_q1w2e3r4t.mp4"]
    (Directory 1699991000000 4096)
    (<[ ["app"; "downloads"; "video_1699991000000_q1w2e3r4t.mp4"; "mkv"]
        := File 1699991000000 "matroska" ]>
     (<[ ["app"; "downloads"; "video_1699992000000_m5n6b7v8c.mp4"]
         := File 1699992000000 "ftyp" ]> ∅)).

(** A request with the format [mp4/mkv], and one whose format is the
    parent directory. *)
Definition a_two_format_request : request :=
  Request (Body (Some "https://example.com/watch?v=1") (Some "mp4/mkv") None)
    "http" "localhost:3000".

Definition a_parent_request : request :=
  Request (Body (Some "https://example.com/watch?v=1") (Some "/..") None)
    "http" "localhost:3000".

(** A store whose only entry is a file with a name that begins with a dot. *)
Definition a_hidden_store : filesystem :=
  <[ ["app"; "downloads"; ".gitkeep"] := File 1700007200000 "" ]> ∅.

(** A parsed output of [yt-dlp --dump-json]. *)
Definition an_info : json :=
  JObj [("id", JStr "1"); ("title", JStr "Big Buck Bunny");
        ("description", JStr "A large rabbit");
        ("formats", JArr [JObj [("format_id", JStr "18"); ("ext", JStr "mp4");
                                ("vcodec", JStr "avc1")]])].

(** The creation time that the examples give to every file. *)
Definition a_birthtime (path : list string) : string := "2023-11-14T22:13:20.000Z".

(** A request whose format has parent-directory components. *)
Definition a_climbing_request : request :=
  Request (Body (Some "https://example.com/watch?v=1") (Some "/../../server.js") None)
    "http" "localhost:3000".

(** Closes a goal from [H : x ∈ l] when [x] differs from every element
    of the explicit list [l]. *)
Ltac not_among H :=
  repeat (apply elem_of_cons in H as [H|H]; [by inversion H|]);
  by apply elem_of_nil in H.

Section Server.

(** The directory [server.js] is installed in. *)
Context (__dirname : Path.t).

Definition DOWNLOADS_DIR : Path.t := Path.join __dirname "downloads".

(** *** The file system as the server sees it *)

(** What [stat] reports for a directory that the file system has no node
    for. *)
Definition default_directory : directory := Directory 0 4096.

(** The node a path names. The downloads directory is always there, and
    so are the directories above it: the server makes it when it starts
    (line 21) and nothing in the code removes a directory. A path written
    with a trailing slash does not name a regular file. *)
Definition node_at (fs : filesystem) (p : Path.t) : option node :=
  if bool_decide (Path.segs p `prefix_of` Path.segs DOWNLOADS_DIR) then
    Some (Folder (match nodes fs !! Path.segs p with
                  | Some (Folder d) => d
                  | _ => default_directory
                  end))
  else
    match nodes fs !! Path.segs p with
    | Some (Regular f) => if Path.dir_only p then None else Some (Regular f)
    | other => other
    end.

(** The regular file a path names, if any. *)
Definition stat (fs : filesystem) (p : Path.t) : option file :=
  match node_at fs p with
  | Some (Regular f) => Some f
  | _ => None
  end.

(** [fs.existsSync(p)]: true for a regular file and for a directory. *)
Definition existsSync (fs : filesystem) (p : Path.t) : bool :=
  bool_decide (is_Some (node_at fs p)).

(** [fs.statSync(p)] *)
Definition statSync (fs : filesystem) (p : Path.t) : thrown node :=
  match node_at fs p with
  | Some n => Ok n
  | None => Throw (ENOENT "stat" p)
  end.

(** [fs.unlinkSync(p)]: removes a regular file, and throws on a
    directory. *)
Definition unlinkSync (fs : filesystem) (p : Path.t) : thrown filesystem :=
  match node_at fs p with
  | Some (Regular _) => Ok (delete (Path.segs p) fs)
  | Some (Folder _) => Throw (EISDIR "unlink" p)
  | None => Throw (ENOENT "unlink" p)
  end.

(** The names of the entries of a directory: its regular files and its
    subdirectories. *)
Definition readdir_set (fs : filesystem) (dir : Path.t) : gset string :=
  set_omap (Path.child_of (Path.segs dir)) (dom (nodes fs)).

(** [fs.readdirSync(dir)]; the server reads the downloads directory only. *)
Definition readdirSync (fs : filesystem) (dir : Path.t) : list string :=
  elements (readdir_set fs dir).

(** The parent of every node is a directory: one that has a node, or
    one that is always there. *)
Definition well_formed (fs : filesystem) : bool :=
  forallb (λ entry : list string * node,
             match node_at fs (Path.Make (removelast entry.1) false) with
             | Some (Folder _) => true
             | _ => false
             end)
    (map_to_list (nodes fs)).

(** *** Cleanup of old files *)

Definition twoHours : Z := 2 * 60 * 60 * 1000.

Definition cleanup_file (now : Z) (fs : filesystem) (file : string) : thrown filesystem :=
  let filePath := Path.join DOWNLOADS_DIR file in
  stat ← statSync fs filePath;
  if bool_decide (now - node_mtimeMs stat > twoHours) then unlinkSync fs filePath
  else Ok fs.

(** The file system the sweep leaves, and the error that ended it when a
    call threw: nothing catches it in the timer callback. *)
Definition cleanupOldFiles (now : Z) (fs : filesystem) : filesystem * option string :=
  forEach (cleanup_file now) fs (readdirSync fs DOWNLOADS_DIR).

(** *** Jobs *)

(** [`${kind}_${Date.now()}_${Math.random().toString(36).substr(2, 9)}`];
    [rnd] is the random suffix. *)
Definition job_id (kind : string) (now : Z) (rnd : string) : string :=
  kind +:+ "_" +:+ pretty now +:+ "_" +:+ rnd.

Definition download_url (req : request) (fileName : string) : string :=
  protocol req +:+ "://" +:+ host req +:+ "/api/file/" +:+ fileName.

Definition failed (message jobId : string) : reply :=
  Json 500 (obj [("success", Some (JBool false)); ("error", Some (JStr message));
                 ("jobId", Some (JStr jobId))]).

(** *** POST /api/info *)

Definition info_query (req : request) (result : exec_result) : outcome :=
  let '(Body url _ _) := req_body req in
  match truthy url with
  | None => Outcome [] None url_required None
  | Some url =>
      let cmd := "yt-dlp --dump-json " +:+ dquote +:+ url +:+ dquote in
      let data :=
        match result with
        | ExecError message => Throw message
        | ExecOk parsed => parsed ≫= info_data
        end in
      let answer :=
        match data with
        | Ok data => Json 200 (obj [("success", Some (JBool true)); ("data", Some data)])
        | Throw message =>
            Json 500 (obj [("success", Some (JBool false)); ("error", Some (JStr message))])
        end in
      Outcome [Exec cmd] None answer None
  end.

(** *** POST /api/download *)

(** The three download handlers start their child with [spawn]. [spawn]
    checks its arguments first, and throws on one that holds a NUL byte
    without starting a child: the handlers are modelled for requests
    whose URL and format hold no NUL byte. *)

Definition video_formatStr (format quality : string) : string :=
  if decide (quality = "best") then
    if decide (format = "mp4")
    then "bestvideo[ext=mp4]+bestaudio[ext=m4a]/best[ext=mp4]/best"
    else "bestvideo+bestaudio/best"
  else if decide (quality = "1080p") then
    "bestvideo[height<=1080]+bestaudio/best[height<=1080]"
  else if decide (quality = "720p") then
    "bestvideo[height<=720]+bestaudio/best[height<=720]"
  else if decide (quality = "480p") then
    "bestvideo[height<=480]+bestaudio/best[height<=480]"
  else "bestvideo+bestaudio/best".

(** What follows the promise: the check of the output file and the answer. *)
Definition finish (req : request) (completed : string) (jobId format : string)
    (outputPath : Path.t) (trace : list event) (fs : filesystem) : reply :=
  match settled (await_child trace) with
  | None => NoReply
  | Some (Rejected message) => failed message jobId
  | Some Resolved =>
      if negb (existsSync fs outputPath)
      then failed "Download completed but file not found" jobId
      else
        let fileName := jobId +:+ "." +:+ format in
        let downloadUrl := download_url req fileName in
        Json 200 (obj [("success", Some (JBool true)); ("message", Some (JStr completed));
                       ("jobId", Some (JStr jobId)); ("fileName", Some (JStr fileName));
                       ("downloadUrl", Some (JStr downloadUrl))])
  end.

Definition download (req : request) (now : Z) (rnd : string)
    (trace : list event) (fs : filesystem) : outcome :=
  let '(Body url format quality) := req_body req in
  let format := default_to "mp4" format in
  let quality := default_to "best" quality in
  match truthy url with
  | None => Outcome [] None url_required None
  | Some url =>
      let jobId := job_id "video" now rnd in
      let outputPath := Path.join DOWNLOADS_DIR (jobId +:+ "." +:+ format) in
      let formatStr := video_formatStr format quality in
      let args := ["-f"; formatStr; "--merge-output-format"; format;
                   "-o"; Path.render outputPath; "--no-playlist"; url] in
      Outcome [Spawn "yt-dlp" args] (Some jobId)
        (finish req "Download completed" jobId format outputPath trace fs) None
  end.

(** *** POST /api/download-audio *)

Definition download_audio (req : request) (now : Z) (rnd : string)
    (trace : list event) (fs : filesystem) : outcome :=
  let '(Body url format _) := req_body req in
  let format := default_to "mp3" format in
  match truthy url with
  | None => Outcome [] None url_required None
  | Some url =>
      let jobId := job_id "audio" now rnd in
      let outputPath := Path.join DOWNLOADS_DIR (jobId +:+ "." +:+ format) in
      let args := ["-x"; "--audio-format"; format; "--audio-quality"; "0";
                   "-o"; Path.render outputPath; "--no-playlist"; url] in
      Outcome [Spawn "yt-dlp" args] (Some jobId)
        (finish req "Audio download completed" jobId format outputPath trace fs) None
  end.

(** *** POST /api/download-stream *)

(** The terminal event the [close] listener writes. *)
Definition closing_frame (req : request) (jobId : string) (fs : filesystem)
    (code : option Z) : json :=
  if decide (code = Some 0) then
    let files := List.filter (λ f, startsWith f jobId) (readdirSync fs DOWNLOADS_DIR) in
    match files with
    | fileName :: _ => complete_frame fileName (download_url req fileName)
    | [] => error_frame "File not found after download"
    end
  else error_frame ("Process exited with code " +:+ code_text code).

(** The listeners the handler registers: [stdout] data, [stderr] data and
    [close]. The child's [error] has no listener: the emitter throws it,
    nothing catches it, and the server process ends there. Nothing listens
    to the request's [close]. A child that has closed emits nothing more. *)
Definition on_stream_event (req : request) (jobId : string) (fs : filesystem)
    (r : relay) (e : event) : relay :=
  if stopped r then r
  else match e with
       | StdoutData output => write r (progress_frame output)
       | StderrData output => write r (log_frame output)
       | ChildClose code =>
           Relay (log r ++ [ResWrite (closing_frame req jobId fs code); ResEnd]) true (escaped r)
       | ChildError message => Relay (log r) (ended r) (Some message)
       | ClientGone => r
       end.

Definition download_stream (req : request) (now : Z) (rnd : string)
    (trace : list event) (fs : filesystem) : outcome :=
  let '(Body url format quality) := req_body req in
  let format := default_to "mp4" format in
  let quality := default_to "best" quality in
  match truthy url with
  | None => Outcome [] None url_required None
  | Some url =>
      let jobId := job_id "video" now rnd in
      let outputTemplate := Path.join DOWNLOADS_DIR (jobId +:+ ".%(ext)s") in
      let formatStr :=
        if decide (format = "mp4")
        then "bestvideo[ext=mp4]+bestaudio[ext=m4a]/best[ext=mp4]/best"
        else "bestvideo+bestaudio/best" in
      let args := ["-f"; formatStr; "--merge-output-format"; format;
                   "-o"; Path.render outputTemplate; "--no-playlist"; "--newline"; url] in
      let r := foldl (on_stream_event req jobId fs) (Relay [] false None) trace in
      Outcome [Spawn "yt-dlp" args] (Some jobId) (Stream (log r)) (escaped r)
  end.

(** *** GET and DELETE /api/file/:filename *)

Definition not_found : reply :=
  Json 404 (obj [("success", Some (JBool false)); ("error", Some (JStr "File not found"))]).

Definition download_failed : reply :=
  Json 500 (obj [("success", Some (JBool false)); ("error", Some (JStr "Download failed"))]).

(** A path whose last segment begins with a dot: [res.download] does not
    send such a file. *)
Definition hidden (p : Path.t) : bool :=
  match last (Path.segs p) with
  | Some name => startsWith name "."
  | None => false
  end.

(** [filename] is the decoded route parameter. [res.download] sends a
    regular file whose name does not begin with a dot; it calls back with
    an error for a directory and for a name that begins with a dot, and
    when the transfer itself fails, which [transfer_ok] tells. *)
Definition get_file (filename : string) (transfer_ok : bool) (fs : filesystem) : reply :=
  let filePath := Path.join DOWNLOADS_DIR filename in
  if negb (existsSync fs filePath) then not_found
  else match node_at fs filePath with
       | Some (Regular f) =>
           if transfer_ok && negb (hidden filePath) then Attachment filename (content f)
           else download_failed
       | _ => download_failed
       end.

Definition delete_file (filename : string) (fs : filesystem) : reply * filesystem :=
  let filePath := Path.join DOWNLOADS_DIR filename in
  if negb (existsSync fs filePath) then (not_found, fs)
  else match unlinkSync fs filePath with
       | Ok fs' =>
           (Json 200 (obj [("success", Some (JBool true));
                           ("message", Some (JStr "File deleted successfully"))]), fs')
       | Throw message =>
           (Json 500 (obj [("success", Some (JBool false));
                           ("error", Some (JStr message))]), fs)
       end.

(** *** The routes of the three download jobs *)

Inductive endpoint :=
| Download
| DownloadAudio
| DownloadStream.

Definition post (e : endpoint) : request → Z → string → list event → filesystem → outcome :=
  match e with
  | Download => download
  | DownloadAudio => download_audio
  | DownloadStream => download_stream
  end.

(** The prefix of the job id, the default of [format] and the message of
    a success, by route. *)
Definition job_kind (e : endpoint) : string :=
  match e with
  | DownloadAudio => "audio"
  | _ => "video"
  end.

Definition default_format (e : endpoint) : string :=
  match e with
  | DownloadAudio => "mp3"
  | _ => "mp4"
  end.

Definition done_message (e : endpoint) : string :=
  match e with
  | DownloadAudio => "Audio download completed"
  | _ => "Download completed"
  end.

(** What the sweep leaves of the node [n] at [k], when it visits [paths]
    and none of them is a directory older than two hours. *)
Definition kept (now : Z) (paths : list (list string)) (k : list string) (n : node)
    : option node :=
  match n with
  | Regular f => if decide (now - mtimeMs f > twoHours ∧ k ∈ paths) then None else Some n
  | Folder _ => Some n
  end.

(** The entry [name] of the downloads directory is a directory older
    than two hours at [now]. *)
Definition old_folder (now : Z) (fs : filesystem) (name : string) : bool :=
  match nodes fs !! (Path.segs DOWNLOADS_DIR ++ [name]) with
  | Some (Folder d) => bool_decide (now - dir_mtimeMs d > twoHours)
  | _ => false
  end.

(** No entry of the downloads directory is such a directory. *)
Definition sweepable (now : Z) (fs : filesystem) : bool :=
  forallb (λ name, negb (old_folder now fs name)) (readdirSync fs DOWNLOADS_DIR).

(** A path made only of proper names. *)
Definition clean (l : list string) : Prop :=
  Forall (λ seg, seg ≠ "" ∧ seg ≠ "." ∧ seg ≠ "..") l.

(** The failure text of a child that ended with [code] after [trace]:
    what it wrote to stderr, or the exit code when that is empty. *)
Definition failure_text (trace : list event) (code : option Z) : string :=
  or_else (stderr_of trace) ("Process exited with code " +:+ code_text code).


(** *** GET /api/health *)

(** [checkYtDlp]: [yt-dlp --version] is run through the shell; [ran] is
    what came of it, its output or the error. *)
Definition checkYtDlp (ran : thrown string) : launch * bool :=
  (Exec "yt-dlp --version",
   match ran with
   | Ok _ => true
   | Throw _ => false
   end).

(** [timestamp] is [new Date().toISOString()]. *)
Definition health (ran : thrown string) (timestamp : string) : outcome :=
  let '(started, ytdlpInstalled) := checkYtDlp ran in
  Outcome [started] None
    (Json 200 (obj [("success", Some (JBool true));
                    ("message", Some (JStr "API is running"));
                    ("ytdlpInstalled", Some (JBool ytdlpInstalled));
                    ("timestamp", Some (JStr timestamp))]))
    None.

(** *** GET /api/files *)

(** One entry of the listing. [birthtime] gives the creation time of the
    node at a path, as [JSON.stringify] writes the date. *)
Definition file_entry (req : request) (birthtime : list string → string)
    (fs : filesystem) (file : string) : thrown json :=
  let filePath := Path.join DOWNLOADS_DIR file in
  stat ← statSync fs filePath;
  mret (obj [("name", Some (JStr file));
             ("size", Some (JNum (pretty (stat_size stat))));
             ("created", Some (JStr (birthtime (Path.segs filePath))));
             ("downloadUrl", Some (JStr (download_url req file)))]).

Definition list_files (req : request) (birthtime : list string → string)
    (fs : filesystem) : reply :=
  match mapM (file_entry req birthtime fs) (readdirSync fs DOWNLOADS_DIR) with
  | Ok files => Json 200 (obj [("success", Some (JBool true)); ("files", Some (JArr files))])
  | Throw message =>
      Json 500 (obj [("success", Some (JBool false)); ("error", Some (JStr message))])
  end.

(** *** More vocabulary *)

(** The names of the files of a listing. *)
Definition listed_names (a : reply) : list string :=
  match a with
  | Json _ (JObj payload) =>
      match assoc "files" payload with
      | Some (JArr files) => omap (string_field "name") files
      | _ => []
      end
  | _ => []
  end.

(** The format selectors the handlers can give to yt-dlp after [-f]. *)
Definition selectors : list string :=
  ["bestvideo[ext=mp4]+bestaudio[ext=m4a]/best[ext=mp4]/best";
   "bestvideo+bestaudio/best";
   "bestvideo[height<=1080]+bestaudio/best[height<=1080]";
   "bestvideo[height<=720]+bestaudio/best[height<=720]";
   "bestvideo[height<=480]+bestaudio/best[height<=480]"].

(** The character [c] occurs in [s]. *)
Fixpoint has_char (c : ascii) (s : string) : bool :=
  match s with
  | EmptyString => false
  | String c' rest => bool_decide (c = c') || has_char c rest
  end.

(** The NUL character. [spawn] checks its arguments before it starts a
    child, and throws on one that holds a NUL. *)
Definition NUL : ascii := ascii_of_nat 0.

(** [spawn] takes the vector: no argument holds a NUL byte. *)
Definition spawn_takes (args : list string) : bool :=
  forallb (λ arg, negb (has_char NUL arg)) args.

(** A digit or the minus sign: the characters of a printed integer. *)
Definition numeric (c : ascii) : bool := has_char c "0123456789-".


(** The status of a JSON answer. *)
Definition status_of (a : reply) : option Z :=
  match a with
  | Json status _ => Some status
  | _ => None
  end.

(** The name of the file that a download route asks yt-dlp to write:
    the job id and the format, or the template of the streaming route. *)
Definition output_name (e : endpoint) (req : request) (now : Z) (rnd : string) : string :=
  match e with
  | DownloadStream => job_id "video" now rnd +:+ ".%(ext)s"
  | _ => job_id (job_kind e) now rnd +:+ "."
         +:+ default_to (default_format e) (format (req_body req))
  end.

(** The entry of the listing for the node [n] named [name]. *)
Definition entry_of (req : request) (birthtime : list string → string)
    (name : string) (n : node) : json :=
  obj [("name", Some (JStr name));
       ("size", Some (JNum (pretty (stat_size n))));
       ("created", Some (JStr (birthtime (Path.segs DOWNLOADS_DIR ++ [name]))));
       ("downloadUrl", Some (JStr (download_url req name)))].

(** ** Tactics *)

(** Runs a handler up to its test of the URL, which [Hu] decides. *)
Ltac with_url Hu :=
  unfold post, download, download_audio, download_stream, info_query;
  simpl in Hu |- *; rewrite ?Hu; simpl.

(** ** Strings *)

Lemma append_cons c (s t : string) : String c s +:+ t = String c (s +:+ t).
Proof. reflexivity. Qed.

Lemma append_nil_r (s : string) : s +:+ "" = s.
Proof. induction s as [|c s IH]; [done|]. by rewrite append_cons, IH. Qed.

Lemma append_assoc (s t u : string) : (s +:+ t) +:+ u = s +:+ (t +:+ u).
Proof. induction s as [|c s IH]; [done|]. by rewrite !append_cons, IH. Qed.

Lemma startsWith_app (s t : string) : startsWith (s +:+ t) s = true.
Proof.
  unfold startsWith. induction s as [|c s IH]; [by destruct t|].
  rewrite append_cons. simpl. by destruct (ascii_dec c c).
Qed.

(** ** Paths *)

Lemma push_clean stack seg : clean stack → clean (Path.push stack seg).
Proof.
  unfold Path.push. intros Hs. repeat case_decide; [done| |].
  - destruct stack; [done|]. by inversion Hs.
  - constructor; [|done]. naive_solver.
Qed.

Lemma foldl_push_clean l stack : clean stack → clean (foldl Path.push stack l).
Proof. revert stack. induction l; simpl; auto using push_clean. Qed.

Lemma foldl_push_keeps l stack : clean l → foldl Path.push stack l = reverse l ++ stack.
Proof.
  revert stack. induction l as [|seg l IH]; intros stack Hl; [done|].
  apply Forall_cons in Hl as [(?&?&?) Hl']. simpl. rewrite IH by done.
  unfold Path.push. rewrite decide_False by (by intros [?|?]).
  rewrite decide_False by done.
  by rewrite reverse_cons, <-app_assoc.
Qed.

Lemma normalize_clean l : clean (Path.normalize l).
Proof.
  unfold Path.normalize. apply Forall_reverse, foldl_push_clean. constructor.
Qed.

Lemma normalize_app l l' :
  Path.normalize (Path.normalize l ++ l') = Path.normalize (l ++ l').
Proof.
  unfold Path.normalize. f_equal. rewrite !foldl_app. f_equal.
  rewrite foldl_push_keeps.
  - by rewrite reverse_involutive, app_nil_r.
  - apply Forall_reverse, foldl_push_clean. constructor.
Qed.

Lemma normalize_idemp l : Path.normalize (Path.normalize l) = Path.normalize l.
Proof. by rewrite <-(app_nil_r (Path.normalize l)), normalize_app, !app_nil_r. Qed.

Lemma normalize_snoc l n :
  n ≠ "" → n ≠ "." → n ≠ ".." →
  Path.normalize (l ++ [n]) = Path.normalize l ++ [n].
Proof.
  intros. unfold Path.normalize. rewrite foldl_app. simpl.
  unfold Path.push. rewrite decide_False by (by intros [?|?]).
  rewrite decide_False by done.
  by rewrite reverse_cons.
Qed.

Lemma valid_name_spec n :
  Path.valid_name n = true ↔ Path.split n = [n] ∧ n ≠ "" ∧ n ≠ "." ∧ n ≠ "..".
Proof. unfold Path.valid_name. by rewrite bool_decide_eq_true. Qed.

Lemma join_name (d : Path.t) n :
  Path.valid_name n = true →
  Path.join d n = Path.Make (Path.normalize (Path.segs d) ++ [n]) false.
Proof.
  intros (Hs & ? & ? & ?)%valid_name_spec. unfold Path.join.
  rewrite decide_False by done. rewrite Hs, normalize_snoc by done.
  f_equal. apply bool_decide_eq_false. intros [Hl _].
  rewrite last_singleton in Hl. congruence.
Qed.

Lemma DOWNLOADS_DIR_eq :
  DOWNLOADS_DIR = Path.Make (Path.normalize (Path.segs __dirname) ++ ["downloads"]) false.
Proof. unfold DOWNLOADS_DIR. by rewrite join_name. Qed.

Lemma normalize_DOWNLOADS_DIR l :
  Path.normalize (Path.segs DOWNLOADS_DIR ++ l)
  = Path.normalize (Path.segs __dirname ++ "downloads" :: l).
Proof.
  rewrite DOWNLOADS_DIR_eq. cbn [Path.segs].
  rewrite <-(normalize_snoc _ "downloads") by done.
  rewrite normalize_app. by rewrite <-app_assoc.
Qed.

(** The path of an entry of the downloads directory. *)
Lemma join_DOWNLOADS_DIR n :
  Path.valid_name n = true →
  Path.join DOWNLOADS_DIR n = Path.Make (Path.segs DOWNLOADS_DIR ++ [n]) false.
Proof.
  intros Hn. rewrite join_name by done. f_equal.
  rewrite DOWNLOADS_DIR_eq. cbn [Path.segs].
  rewrite <-(normalize_snoc _ "downloads") by done.
  by rewrite normalize_idemp.
Qed.

Opaque DOWNLOADS_DIR.

(** ** The downloads directory *)

Lemma child_of_spec d k n :
  Path.child_of d k = Some n ↔ k = d ++ [n] ∧ Path.valid_name n = true.
Proof.
  unfold Path.child_of. split.
  - destruct k as [|seg k]; [done|].
    destruct (bool_decide _ && _) eqn:H; [|done]. intros [= <-].
    by apply andb_true_iff in H as [?%bool_decide_eq_true ?].
  - intros [-> Hv]. destruct (d ++ [n]) eqn:E; [by destruct d|].
    rewrite <-E, last_snoc. simpl.
    by rewrite bool_decide_eq_true_2, Hv.
Qed.

(** *** Regular files among the nodes *)

Lemma lookup_file (fs : filesystem) k :
  fs !! k = match nodes fs !! k with
            | Some (Regular f) => Some f
            | _ => None
            end.
Proof. reflexivity. Qed.

Lemma lookup_file_Some (fs : filesystem) k f :
  fs !! k = Some f ↔ nodes fs !! k = Some (Regular f).
Proof. rewrite lookup_file. destruct (nodes fs !! k) as [[]|]; naive_solver. Qed.

Lemma nodes_delete (fs : filesystem) k : nodes (delete k fs) = delete k (nodes fs).
Proof. reflexivity. Qed.



Lemma lookup_delete_file_ne (fs : filesystem) k k' :
  k ≠ k' → delete k fs !! k' = fs !! k'.
Proof. intros. by rewrite !lookup_file, nodes_delete, lookup_delete_ne. Qed.

Lemma filesystem_eq (fs1 fs2 : filesystem) : nodes fs1 = nodes fs2 → fs1 = fs2.
Proof. destruct fs1, fs2. simpl. by intros ->. Qed.

(** *** The entries of the downloads directory *)

Lemma elem_of_readdirSync fs dir n :
  n ∈ readdirSync fs dir
  ↔ Path.valid_name n = true ∧ is_Some (nodes fs !! (Path.segs dir ++ [n])).
Proof.
  unfold readdirSync, readdir_set.
  rewrite elem_of_elements, elem_of_set_omap. split.
  - intros (k & Hk & (-> & Hv)%child_of_spec). by apply elem_of_dom in Hk.
  - intros [Hv Hk]. exists (Path.segs dir ++ [n]).
    split; [by apply elem_of_dom|]. by apply child_of_spec.
Qed.

Lemma entry_not_above (l : list string) n : ¬ (l ++ [n]) `prefix_of` l.
Proof.
  intros [k Hk]. apply (f_equal length) in Hk.
  rewrite !length_app in Hk. simpl in Hk. lia.
Qed.

(** An entry of the downloads directory is the node the file system has
    at its path. *)
Lemma node_at_entry fs n :
  Path.valid_name n = true →
  node_at fs (Path.join DOWNLOADS_DIR n) = nodes fs !! (Path.segs DOWNLOADS_DIR ++ [n]).
Proof.
  intros Hn. rewrite join_DOWNLOADS_DIR by done. unfold node_at.
  cbn [Path.segs Path.dir_only].
  rewrite bool_decide_eq_false_2 by apply entry_not_above.
  by destruct (nodes fs !! _) as [[]|].
Qed.

Lemma stat_entry fs n :
  Path.valid_name n = true →
  stat fs (Path.join DOWNLOADS_DIR n) = fs !! (Path.segs DOWNLOADS_DIR ++ [n]).
Proof.
  intros Hn. unfold stat. rewrite node_at_entry, lookup_file by done.
  by destruct (nodes fs !! _) as [[]|].
Qed.

(** A path that names a regular file has that file as its node. *)
Lemma stat_Some fs p f :
  stat fs p = Some f
  ↔ node_at fs p = Some (Regular f).
Proof. unfold stat. destruct (node_at fs p) as [[]|]; naive_solver. Qed.

Lemma node_at_Regular fs p f :
  node_at fs p = Some (Regular f) →
  nodes fs !! Path.segs p = Some (Regular f)
  ∧ ¬ (Path.segs p `prefix_of` Path.segs DOWNLOADS_DIR).
Proof.
  unfold node_at. case_bool_decide as Hp; [done|].
  destruct (nodes fs !! Path.segs p) as [[g|d]|]; try done.
  destruct (Path.dir_only p); [done|]. by intros [= ->].
Qed.

(** Once the node at a path that named a regular file is taken away, the
    path names nothing. *)
Lemma node_at_deleted fs p f :
  node_at fs p = Some (Regular f) → node_at (delete (Path.segs p) fs) p = None.
Proof.
  intros [_ Hp]%node_at_Regular. unfold node_at.
  rewrite bool_decide_eq_false_2 by done.
  by rewrite nodes_delete, lookup_delete_eq.
Qed.

(** *** The sweep of a directory without an old subdirectory *)

Lemma old_folder_nodes now fs fs' n :
  nodes fs' !! (Path.segs DOWNLOADS_DIR ++ [n]) = nodes fs !! (Path.segs DOWNLOADS_DIR ++ [n]) →
  old_folder now fs' n = old_folder now fs n.
Proof. unfold old_folder. by intros ->. Qed.

Lemma kept_cons_ne now path paths k n :
  k ≠ path → kept now (path :: paths) k n = kept now paths k n.
Proof.
  intros Hk. destruct n as [f|d]; [|done]. simpl.
  destruct (decide (now - mtimeMs f > twoHours ∧ k ∈ paths)) as [[? ?]|Hno].
  - rewrite decide_True; [done|]. split; [done|by right].
  - rewrite decide_False; [done|]. intros [? Hin]. apply Hno. split; [done|].
    by apply elem_of_cons in Hin as [?|?].
Qed.

Lemma sweep_lookup now names fs :
  NoDup names →
  (∀ n, n ∈ names →
     Path.valid_name n = true
     ∧ is_Some (nodes fs !! (Path.segs DOWNLOADS_DIR ++ [n]))
     ∧ old_folder now fs n = false) →
  ∃ fs', forEach (cleanup_file now) fs names = (fs', None) ∧
    ∀ k, nodes fs' !! k
         = nodes fs !! k ≫= kept now ((λ n, Path.segs DOWNLOADS_DIR ++ [n]) <$> names) k.
Proof.
  intros Hnd. revert fs.
  induction Hnd as [|n rest Hn Hrest IH]; intros fs Hall.
  { exists fs. split; [done|]. intros k. destruct (nodes fs !! k) as [[f|d]|] eqn:E; try done.
    simpl. rewrite decide_False; [done|].
    intros [_ H]. by apply elem_of_nil in H. }
  destruct (Hall n) as (Hv & [x Hx] & Hfolder); [left|].
  set (fs1 := match x with
              | Regular f =>
                  if bool_decide (now - mtimeMs f > twoHours)
                  then delete (Path.segs DOWNLOADS_DIR ++ [n]) fs else fs
              | Folder _ => fs
              end).
  assert (cleanup_file now fs n = Ok fs1) as Hstep.
  { unfold cleanup_file, statSync, unlinkSync.
    rewrite node_at_entry, Hx by done. simpl. subst fs1.
    destruct x as [f|d]; simpl.
    - rewrite join_DOWNLOADS_DIR by done. by destruct (bool_decide _).
    - unfold old_folder in Hfolder. rewrite Hx in Hfolder. by rewrite Hfolder. }
  assert (∀ k, k ≠ Path.segs DOWNLOADS_DIR ++ [n] → nodes fs1 !! k = nodes fs !! k) as Hne.
  { intros k Hk. subst fs1. destruct x as [f|d]; [|done].
    destruct (bool_decide _); [|done]. by rewrite nodes_delete, lookup_delete_ne. }
  destruct (IH fs1) as (fs' & Hrun & Hlook).
  { intros m Hm. destruct (Hall m) as (Hvm & Hsome & Hfm); [by right|].
    assert (Path.segs DOWNLOADS_DIR ++ [m] ≠ Path.segs DOWNLOADS_DIR ++ [n]) as Hmn.
    { intros Heq. apply app_inv_head in Heq. by injection Heq as ->. }
    split; [done|]. rewrite (old_folder_nodes now fs fs1) by by apply Hne.
    by rewrite Hne. }
  exists fs'. split; [simpl; by rewrite Hstep|].
  intros k. rewrite Hlook, fmap_cons.
  destruct (decide (k = Path.segs DOWNLOADS_DIR ++ [n])) as [->|Hk].
  - rewrite Hx. simpl. subst fs1. destruct x as [f|d]; simpl.
    + destruct (decide (now - mtimeMs f > twoHours)) as [Hold|Hnew].
      * rewrite bool_decide_eq_true_2, nodes_delete, lookup_delete_eq by done. simpl.
        rewrite decide_True; [done|]. split; [done|left].
      * rewrite bool_decide_eq_false_2, Hx by done. simpl.
        rewrite !decide_False; [done|..]; by intros [? _].
    + by rewrite Hx.
  - rewrite Hne by done. destruct (nodes fs !! k) as [x'|]; [|done]. simpl.
    by rewrite kept_cons_ne.
Qed.

Lemma sweepable_spec now fs :
  sweepable now fs = true
  ↔ ∀ n, n ∈ readdirSync fs DOWNLOADS_DIR → old_folder now fs n = false.
Proof.
  unfold sweepable. rewrite forallb_forall. split.
  - intros H n Hn%list_elem_of_In. apply H in Hn. by destruct (old_folder now fs n).
  - intros H n Hn%list_elem_of_In. by rewrite H.
Qed.

(** When no entry is a directory older than two hours, the sweep runs to
    its end. *)
Lemma cleanupOldFiles_lookup now fs :
  sweepable now fs = true →
  ∃ fs', cleanupOldFiles now fs = (fs', None) ∧
    ∀ k, nodes fs' !! k
         = nodes fs !! k ≫= kept now ((λ n, Path.segs DOWNLOADS_DIR ++ [n])
                                        <$> readdirSync fs DOWNLOADS_DIR) k.
Proof.
  intros Hsw. apply sweep_lookup.
  - apply NoDup_elements.
  - intros n Hn. pose proof Hn as [? ?]%elem_of_readdirSync.
    repeat split; try done. by apply sweepable_spec.
Qed.

(** ** The promise around the child *)

Lemma await_running pre w :
  forallb running pre = true →
  settled w = None →
  foldl on_child_event w pre = Waiting (stderr w +:+ stderr_of pre) None.
Proof.
  revert w. induction pre as [|e pre IH]; intros [acc st] Hpre Hw; simpl in *.
  { by rewrite append_nil_r, Hw. }
  apply andb_true_iff in Hpre as [He Hpre]. subst st.
  destruct e; try done; simpl; rewrite IH by done; simpl; [done| |done].
  by rewrite append_assoc.
Qed.

Lemma await_close pre code :
  forallb running pre = true →
  settled (await_child (pre ++ [ChildClose code]))
  = Some (if decide (code = Some 0) then Resolved
          else Rejected (or_else (stderr_of pre)
                           ("Process exited with code " +:+ code_text code))).
Proof.
  intros Hpre. unfold await_child. rewrite foldl_app, (await_running pre) by done.
  simpl. by destruct (decide (code = Some 0)).
Qed.

(** ** The relay *)

Lemma relay_running req jobId fs pre r :
  forallb running pre = true →
  stopped r = false →
  foldl (on_stream_event req jobId fs) r pre = Relay (log r ++ relayed pre) false None.
Proof.
  revert r. induction pre as [|e pre IH]; intros [l en es] Hpre Hr.
  { unfold stopped in Hr. simpl in *. apply orb_false_iff in Hr as [-> Hes].
    destruct es; [done|]. by rewrite app_nil_r. }
  simpl in Hpre. apply andb_true_iff in Hpre as [He Hpre].
  assert (en = false ∧ es = None) as [-> ->].
  { unfold stopped in Hr. simpl in Hr. apply orb_false_iff in Hr as [-> Hes].
    by destruct es. }
  destruct e; try done; simpl; unfold on_stream_event; simpl;
    rewrite IH by done; simpl; by rewrite <-?app_assoc.
Qed.

Lemma relay_stopped req jobId fs trace r :
  stopped r = true → foldl (on_stream_event req jobId fs) r trace = r.
Proof.
  intros Hr. induction trace as [|e trace IH]; [done|].
  simpl. unfold on_stream_event at 2. by rewrite Hr.
Qed.

Lemma relay_close req jobId fs pre code rest :
  forallb running pre = true →
  foldl (on_stream_event req jobId fs) (Relay [] false None)
    (pre ++ ChildClose code :: rest)
  = Relay (relayed pre ++ [ResWrite (closing_frame req jobId fs code); ResEnd]) true None.
Proof.
  intros Hpre. rewrite foldl_app, (relay_running _ _ _ pre) by done. simpl.
  by rewrite relay_stopped.
Qed.

Lemma relay_error req jobId fs pre message rest :
  forallb running pre = true →
  foldl (on_stream_event req jobId fs) (Relay [] false None)
    (pre ++ ChildError message :: rest)
  = Relay (relayed pre) false (Some message).
Proof.
  intros Hpre. rewrite foldl_app, (relay_running _ _ _ pre) by done. simpl.
  by rewrite relay_stopped.
Qed.

Lemma closing_frame_terminal req jobId fs code :
  terminal (ResWrite (closing_frame req jobId fs code)) = true.
Proof.
  unfold closing_frame. apply bool_decide_eq_true.
  destruct (decide _); [destruct (List.filter _ _)|]; simpl; auto.
Qed.

Lemma relayed_not_terminal trace : Forall (λ x, terminal x = false) (relayed trace).
Proof.
  induction trace as [|[] trace IH]; simpl; try done;
    (constructor; [|done]); apply bool_decide_eq_false; by intros [|].
Qed.

Lemma relayed_no_kill trace : ChildKill ∉ relayed trace.
Proof.
  induction trace as [|[] trace IH]; simpl; try done.
  - by intros ?%elem_of_nil.
  - by intros [?|?]%elem_of_cons.
  - by intros [?|?]%elem_of_cons.
Qed.

(** Every trace is output, then either nothing more, or a [close], or an
    [error], and then whatever. *)
Lemma trace_cases (trace : list event) :
  forallb running trace = true
  ∨ ∃ pre e rest, trace = pre ++ e :: rest ∧ forallb running pre = true ∧ running e = false.
Proof.
  induction trace as [|e trace [IH|(pre & e' & rest & -> & Hpre & He')]].
  - by left.
  - destruct (running e) eqn:He.
    + left. simpl. by rewrite He.
    + right. by exists [], e, trace.
  - destruct (running e) eqn:He.
    + right. exists (e :: pre), e', rest. simpl. by rewrite He.
    + right. by exists [], e, (pre ++ e' :: rest).
Qed.

(** What the relay has written and done after any trace. *)
Lemma relay_log req jobId fs trace :
  let r := foldl (on_stream_event req jobId fs) (Relay [] false None) trace in
  (∃ pre, log r = relayed pre ∧ ended r = false)
  ∨ (∃ pre code, log r = relayed pre ++ [ResWrite (closing_frame req jobId fs code); ResEnd]
                 ∧ ended r = true ∧ escaped r = None).
Proof.
  destruct (trace_cases trace) as [Hrun|(pre & e & rest & -> & Hpre & He)].
  - left. exists trace. by rewrite relay_running.
  - destruct e; try done.
    + right. exists pre, code. by rewrite relay_close.
    + left. exists pre. by rewrite relay_error.
Qed.

(** ** The periodic sweep *)

(** X19. When no entry of the downloads directory is a directory older
    than two hours, the sweep runs to its end. A regular file among the
    entries whose last modification is more than two hours old is absent
    afterwards, and one that is not older than that is still there,
    unchanged. Whatever the sweep changed in the file system was such an
    old file. *)
Theorem sweep_retention now fs name f :
  sweepable now fs = true →
  name ∈ readdirSync fs DOWNLOADS_DIR →
  stat fs (Path.join DOWNLOADS_DIR name) = Some f →
  ∃ fs', cleanupOldFiles now fs = (fs', None) ∧
    (now - mtimeMs f > twoHours →
       existsSync fs' (Path.join DOWNLOADS_DIR name) = false
       ∧ name ∉ readdirSync fs' DOWNLOADS_DIR) ∧
    (now - mtimeMs f ≤ twoHours →
       stat fs' (Path.join DOWNLOADS_DIR name) = Some f
       ∧ name ∈ readdirSync fs' DOWNLOADS_DIR) ∧
    (∀ k, nodes fs' !! k ≠ nodes fs !! k →
       ∃ n g, n ∈ readdirSync fs DOWNLOADS_DIR
              ∧ k = Path.segs (Path.join DOWNLOADS_DIR n)
              ∧ nodes fs !! k = Some (Regular g)
              ∧ now - mtimeMs g > twoHours ∧ nodes fs' !! k = None).
Proof.
  intros Hsw Hname Hstat.
  destruct (cleanupOldFiles_lookup now fs Hsw) as (fs' & Hrun & Hlook).
  exists fs'. split; [done|].
  pose proof Hname as [Hv _]%elem_of_readdirSync.
  rewrite stat_entry in Hstat by done. apply lookup_file_Some in Hstat.
  assert (nodes fs' !! (Path.segs DOWNLOADS_DIR ++ [name])
          = if decide (now - mtimeMs f > twoHours) then None else Some (Regular f)) as Hk.
  { rewrite Hlook, Hstat. simpl.
    destruct (decide (now - mtimeMs f > twoHours)).
    - rewrite decide_True; [done|]. split; [done|].
      apply list_elem_of_fmap. by exists name.
    - rewrite decide_False; [done|]. by intros [? _]. }
  split; [|split].
  - intros Hold. rewrite decide_True in Hk by done. split.
    + apply bool_decide_eq_false. rewrite node_at_entry, Hk by done.
      by intros [? ?].
    + rewrite elem_of_readdirSync, Hk. by intros [_ [? ?]].
  - intros Hnew. rewrite decide_False in Hk by lia. split.
    + rewrite stat_entry by done. by apply lookup_file_Some.
    + rewrite elem_of_readdirSync, Hk. by split.
  - intros k Hdiff. rewrite Hlook in Hdiff.
    destruct (nodes fs !! k) as [[g|d]|] eqn:Hg; [|done..]. simpl in Hdiff.
    destruct (decide (now - mtimeMs g > twoHours ∧ k ∈ _)) as [[Hold Hin]|]; [|done].
    apply list_elem_of_fmap in Hin as (n & -> & Hn).
    exists n, g. pose proof Hn as [Hvn _]%elem_of_readdirSync.
    rewrite join_DOWNLOADS_DIR by done. simpl.
    repeat split; try done.
    rewrite Hlook, Hg. simpl. rewrite decide_True; [done|].
    split; [done|]. apply list_elem_of_fmap. by exists n.
Qed.

(** ** Validation *)

Lemma truthy_None v : v = None ∨ v = Some "" → truthy v = None.
Proof. by intros [-> | ->]. Qed.

(** C5. A submission whose URL is missing or empty is answered with the
    validation failure (status 400, "URL is required") at once: no child
    process is started and no job id is made. This holds for the info
    query and for the three download routes. *)
Theorem missing_url_rejected e req now rnd trace fs result :
  url (req_body req) = None ∨ url (req_body req) = Some "" →
  post e req now rnd trace fs = Outcome [] None url_required None
  ∧ info_query req result = Outcome [] None url_required None.
Proof.
  intros Hurl%truthy_None. destruct req as [[u fmt q] pr h].
  split; [destruct e|]; by with_url Hurl.
Qed.

(** ** Jobs that run *)


(** The child of a download is started with [spawn]: the URL is the
    last element of the argument vector, as it came. *)
Lemma post_launch e req now rnd trace fs u :
  truthy (url (req_body req)) = Some u →
  ∃ args, launched (post e req now rnd trace fs) = [Spawn "yt-dlp" (args ++ [u])].
Proof.
  intros Hu. destruct req as [[u' fmt q] pr h], e; with_url Hu.
  - by eexists [_; _; _; _; _; _; _].
  - by eexists [_; _; _; _; _; _; _; _].
  - by eexists [_; _; _; _; _; _; _; _].
Qed.

Lemma post_answer_json e req now rnd trace fs u :
  truthy (url (req_body req)) = Some u →
  e ≠ DownloadStream →
  let jobId := job_id (job_kind e) now rnd in
  let format := default_to (default_format e) (format (req_body req)) in
  answer (post e req now rnd trace fs)
  = finish req (done_message e) jobId format
      (Path.join DOWNLOADS_DIR (jobId +:+ "." +:+ format)) trace fs.
Proof.
  intros Hu He. destruct req as [[u' fmt q] pr h], e; try done; by with_url Hu.
Qed.

Lemma post_answer_stream req now rnd trace fs u :
  truthy (url (req_body req)) = Some u →
  let r := foldl (on_stream_event req (job_id "video" now rnd) fs)
             (Relay [] false None) trace in
  answer (download_stream req now rnd trace fs) = Stream (log r)
  ∧ uncaught (download_stream req now rnd trace fs) = escaped r.
Proof.
  intros Hu. destruct req as [[u' fmt q] pr h]. by with_url Hu.
Qed.


(** C3, as the code has it. When the child of a video or audio download
    ends with a code other than 0, the answer is the failure (status
    500) that carries what the child wrote to stderr, or "Process exited
    with code N" when it wrote nothing there. The streaming route
    forwards stderr as [log] events while the child runs, and its last
    event is the [error] "Process exited with code N" whatever the child
    wrote; the stream is ended after it. *)
Theorem exit_nonzero_reports_failure e req now rnd pre code fs u :
  truthy (url (req_body req)) = Some u →
  forallb running pre = true →
  code ≠ Some 0 →
  let out := post e req now rnd (pre ++ [ChildClose code]) fs in
  match e with
  | DownloadStream =>
      answer out
      = Stream (relayed pre
                ++ [ResWrite (error_frame ("Process exited with code " +:+ code_text code));
                    ResEnd])
  | _ => answer out = failed (failure_text pre code) (job_id (job_kind e) now rnd)
  end.
Proof.
  intros Hu Hpre Hcode out.
  assert (∀ e', e' ≠ DownloadStream →
    answer (post e' req now rnd (pre ++ [ChildClose code]) fs)
    = failed (failure_text pre code) (job_id (job_kind e') now rnd)) as Hjson.
  { intros e' He'. erewrite post_answer_json by done.
    unfold finish. rewrite await_close by done. by rewrite decide_False. }
  destruct e; [by apply Hjson|by apply Hjson|].
  subst out. unfold post.
  destruct (post_answer_stream req now rnd (pre ++ [ChildClose code]) fs u Hu)
    as [-> _].
  rewrite relay_close by done. simpl. unfold closing_frame.
  by rewrite decide_False.
Qed.

(** ** The name of the stored file *)

Lemma omap_complete_file_relayed trace : omap complete_file (relayed trace) = [].
Proof. induction trace as [|[] trace IH]; simpl; try done. Qed.

Lemma closing_frame_file req jobId fs code fileName :
  complete_file (ResWrite (closing_frame req jobId fs code)) = Some fileName →
  startsWith fileName jobId = true.
Proof.
  unfold closing_frame. destruct (decide _); [|done].
  destruct (List.filter _ _) as [|f files] eqn:Hfiles; [done|].
  simpl. intros [= <-].
  assert (In f (List.filter (λ f, startsWith f jobId) (readdirSync fs DOWNLOADS_DIR))) as Hin.
  { rewrite Hfiles. by left. }
  by apply filter_In in Hin as [_ ?].
Qed.

Lemma closing_frame_listed req jobId fs code fileName :
  complete_file (ResWrite (closing_frame req jobId fs code)) = Some fileName →
  fileName ∈ readdirSync fs DOWNLOADS_DIR.
Proof.
  unfold closing_frame. destruct (decide _); [|done].
  destruct (List.filter _ _) as [|f files] eqn:Hfiles; [done|].
  simpl. intros [= <-].
  assert (In f (List.filter (λ f, startsWith f jobId) (readdirSync fs DOWNLOADS_DIR))) as Hin.
  { rewrite Hfiles. by left. }
  apply filter_In in Hin as [Hin _]. by apply list_elem_of_In.
Qed.

(** The file name in the [complete] event of a stream is the one its
    [close] listener wrote. *)
Lemma stream_reported_file req now rnd trace fs u fileName :
  truthy (url (req_body req)) = Some u →
  reported_file (answer (download_stream req now rnd trace fs)) = Some fileName →
  ∃ code, complete_file (ResWrite (closing_frame req (job_id "video" now rnd) fs code))
          = Some fileName.
Proof.
  intros Hu Hfile.
  destruct (post_answer_stream req now rnd trace fs u Hu) as [Hlog _].
  rewrite Hlog in Hfile. unfold reported_file in Hfile.
  destruct (relay_log req (job_id "video" now rnd) fs trace)
    as [(pre & Hr & _)|(pre & code & Hr & _)]; rewrite Hr in Hfile.
  - by rewrite omap_complete_file_relayed in Hfile.
  - rewrite omap_app, omap_complete_file_relayed in Hfile.
    rewrite app_nil_l in Hfile. cbn [omap list_omap] in Hfile.
    destruct (complete_file _) eqn:Hc; [|done].
    simpl in Hfile. injection Hfile as ->. by exists code.
Qed.

(** The file name in the JSON answer of a video or audio download is the
    job id, a dot and the format, and the handler found its path. *)
Lemma json_reported_file e req now rnd trace fs u fileName :
  truthy (url (req_body req)) = Some u →
  e ≠ DownloadStream →
  reported_file (answer (post e req now rnd trace fs)) = Some fileName →
  fileName = job_id (job_kind e) now rnd +:+ "."
             +:+ default_to (default_format e) (format (req_body req))
  ∧ existsSync fs (Path.join DOWNLOADS_DIR fileName) = true.
Proof.
  intros Hu He. erewrite post_answer_json by done. unfold finish.
  destruct (settled _) as [[|]|]; try done.
  destruct (existsSync _ _) eqn:Hex; [|done]. simpl. by intros [= <-].
Qed.

Lemma no_url_no_file e req now rnd trace fs :
  truthy (url (req_body req)) = None →
  reported_file (answer (post e req now rnd trace fs)) = None.
Proof.
  intros Hu. destruct req as [[u' fmt q] pr h], e; by with_url Hu.
Qed.


(** ** Terminal events *)

(** When the child closes, the stream has one terminal event: it comes
    after all that was relayed, and the stream is ended right after it. *)
Lemma stream_close_one_terminal req now rnd pre code rest fs u :
  truthy (url (req_body req)) = Some u →
  forallb running pre = true →
  ∃ last,
    answer (download_stream req now rnd (pre ++ ChildClose code :: rest) fs)
    = Stream (relayed pre ++ [ResWrite last; ResEnd])
    ∧ terminal (ResWrite last) = true
    ∧ Forall (λ x, terminal x = false) (relayed pre).
Proof.
  intros Hu Hpre.
  destruct (post_answer_stream req now rnd (pre ++ ChildClose code :: rest) fs u Hu)
    as [-> _].
  rewrite relay_close by done. eexists. split; [done|].
  split; [apply closing_frame_terminal|apply relayed_not_terminal].
Qed.

(** When the child emits [error], there is no listener for it: the error
    escapes, nothing more is written and the stream is not ended. *)
Lemma stream_error_no_terminal req now rnd pre message rest fs u :
  truthy (url (req_body req)) = Some u →
  forallb running pre = true →
  let out := download_stream req now rnd (pre ++ ChildError message :: rest) fs in
  answer out = Stream (relayed pre)
  ∧ uncaught out = Some message
  ∧ Forall (λ x, terminal x = false) (relayed pre).
Proof.
  intros Hu Hpre out. subst out.
  destruct (post_answer_stream req now rnd (pre ++ ChildError message :: rest) fs u Hu)
    as [-> ->].
  rewrite relay_error by done. split; [done|]. split; [done|].
  apply relayed_not_terminal.
Qed.

Lemma filter_terminal_relayed trace : List.filter terminal (relayed trace) = [].
Proof.
  pose proof (relayed_not_terminal trace) as H.
  induction H as [|x l Hx _ IH]; [done|]. simpl. by rewrite Hx.
Qed.

(** X18. On every trace the stream has at most one terminal event, and
    when it has one the stream is ended right after it. *)
Lemma stream_at_most_one_terminal req now rnd trace fs :
  let log := effects (answer (download_stream req now rnd trace fs)) in
  (List.filter terminal log = [] ∧ ResEnd ∉ log)
  ∨ ∃ before last, log = before ++ [ResWrite last; ResEnd]
                   ∧ List.filter terminal log = [ResWrite last].
Proof.
  destruct (truthy (url (req_body req))) as [u|] eqn:Hu.
  - destruct (post_answer_stream req now rnd trace fs u Hu) as [Hlog _].
    cbv zeta. rewrite Hlog. simpl.
    destruct (relay_log req (job_id "video" now rnd) fs trace)
      as [(pre & -> & _)|(pre & code & -> & _)].
    + left. split; [apply filter_terminal_relayed|].
      intros Hin. induction pre as [|[] pre IH]; simpl in Hin;
        try (by apply IH); try (by apply elem_of_nil in Hin);
        by apply elem_of_cons in Hin as [?|?]; [|apply IH].
    + right. eexists _, _. split; [done|].
      rewrite List.filter_app, filter_terminal_relayed. unfold List.filter.
      by rewrite closing_frame_terminal.
  - left. unfold download_stream. destruct (req_body req) as [u' fmt q]. simpl in Hu.
    rewrite Hu. simpl. split; [done|]. by intros ?%elem_of_nil.
Qed.

(** ** A caller that disconnects *)

Lemma relay_skips_gone req jobId fs trace r :
  foldl (on_stream_event req jobId fs) r (List.filter (λ e, negb (gone e)) trace)
  = foldl (on_stream_event req jobId fs) r trace.
Proof.
  revert r. induction trace as [|e trace IH]; intros r; [done|].
  destruct e; simpl; try apply IH.
  rewrite IH. f_equal. unfold on_stream_event. by destruct (stopped r).
Qed.

(** C9, as the code has it. The relay does not observe a caller that
    disconnects: the handler does the same with and without the
    disconnections in the trace, and it never kills its child, which runs
    until it ends by itself. *)
Theorem disconnect_is_not_observed req now rnd trace fs :
  download_stream req now rnd (List.filter (λ e, negb (gone e)) trace) fs
  = download_stream req now rnd trace fs
  ∧ ChildKill ∉ effects (answer (download_stream req now rnd trace fs)).
Proof.
  split.
  - unfold download_stream. destruct (req_body req) as [u fmt q].
    destruct (truthy u); [|done]. by rewrite relay_skips_gone.
  - destruct (truthy (url (req_body req))) as [u|] eqn:Hu.
    + destruct (post_answer_stream req now rnd trace fs u Hu) as [-> _]. simpl.
      destruct (relay_log req (job_id "video" now rnd) fs trace)
        as [(pre & -> & _)|(pre & code & -> & _)].
      * apply relayed_no_kill.
      * intros [Hin|Hin]%elem_of_app; [by apply relayed_no_kill in Hin|].
        by repeat apply elem_of_cons in Hin as [?|Hin]; [..|apply elem_of_nil in Hin].
    + unfold download_stream. destruct (req_body req) as [u' fmt q]. simpl in Hu.
      rewrite Hu. simpl. by intros ?%elem_of_nil.
Qed.

(** ** How the child is started *)

(** The info query builds a command line around the URL and gives it to
    the shell. *)
Lemma info_launch req result u :
  truthy (url (req_body req)) = Some u →
  launched (info_query req result)
  = [Exec ("yt-dlp --dump-json " +:+ dquote +:+ u +:+ dquote)].
Proof.
  intros Hu. destruct req as [[u' fmt q] pr h]. by with_url Hu.
Qed.

Lemma Exec_not_literal url cmd : ¬ literal_argv url (Exec cmd).
Proof. by intros (file & args & ? & _). Qed.

(** The three download routes pass the URL as one element of the vector. *)
Lemma post_launch_literal e req now rnd trace fs u :
  truthy (url (req_body req)) = Some u →
  Forall (literal_argv u) (launched (post e req now rnd trace fs)).
Proof.
  intros Hu. destruct (post_launch e req now rnd trace fs u Hu) as [args ->].
  constructor; [|done]. exists "yt-dlp", (args ++ [u]). split; [done|].
  apply elem_of_app. right. by left.
Qed.

(** ** The answer to an info query *)

Lemma prop_own v k : v ≠ JNull → prop v k = Ok (own v k).
Proof. by destruct v. Qed.

Lemma format_descriptor_Ok f d :
  format_descriptor f = Ok d ↔ f ≠ JNull ∧ d = reduced f.
Proof.
  unfold format_descriptor.
  destruct f; simpl; (split; [by intros [= <-]|by intros [? ->]]).
Qed.

Lemma mapM_format_descriptor items ds :
  mapM format_descriptor items = Ok ds
  ↔ Forall (λ f, f ≠ JNull) items ∧ ds = reduced <$> items.
Proof.
  revert ds. induction items as [|f items IH]; intros ds; simpl.
  { split; [by intros [= <-]|by intros [_ ->]]. }
  destruct (format_descriptor f) as [d|m] eqn:Hd; simpl.
  - apply format_descriptor_Ok in Hd as [Hf ->].
    destruct (mapM format_descriptor items) as [ds'|m] eqn:Hds; simpl.
    + destruct (IH ds') as [[Hall ->] _]; [done|]. split.
      * intros [= <-]. split; [by constructor|done].
      * by intros [_ ->].
    + split; [done|]. intros [Hall _]. apply Forall_cons in Hall as [_ Hall].
      destruct (IH (reduced <$> items)) as [_ Habs].
      by specialize (Habs (conj Hall eq_refl)).
  - split; [done|]. intros [Hall _]. apply Forall_cons in Hall as [Hf _].
    assert (format_descriptor f = Ok (reduced f)) by by apply format_descriptor_Ok.
    congruence.
Qed.

Lemma formats_of_Ok v formats :
  formats_of (own v "formats") = Ok formats →
  Forall (λ f, f ≠ JNull) (formats_list v)
  ∧ formats = JArr (reduced <$> formats_list v).
Proof.
  unfold formats_of, formats_list. destruct (own v "formats") as [[]|]; simpl; try done.
  - by intros [= <-].
  - destruct (mapM format_descriptor items) as [ds|] eqn:Hds; [|done].
    simpl. intros [= <-]. by apply mapM_format_descriptor in Hds as [? ->].
  - by intros [= <-].
Qed.

Lemma info_data_Ok v data :
  info_data v = Ok data →
  v ≠ JNull
  ∧ Forall (λ f, f ≠ JNull) (formats_list v)
  ∧ data = obj (project scalar_fields v
                ++ [("formats", Some (JArr (reduced <$> formats_list v)))]).
Proof.
  unfold info_data. intros Hdata.
  assert (v ≠ JNull) as Hv by (by intros ->).
  split; [done|]. rewrite !prop_own in Hdata by done. simpl in Hdata.
  destruct (formats_of (own v "formats")) as [formats|] eqn:Hf; [|done].
  simpl in Hdata. injection Hdata as <-. by apply formats_of_Ok in Hf as [? ->].
Qed.

Lemma keys_project names v rest :
  keys (omap (λ kv : string * option json, pair kv.1 <$> kv.2) (project names v ++ rest))
  = filter (λ k, is_Some (own v k)) names
    ++ keys (omap (λ kv : string * option json, pair kv.1 <$> kv.2) rest).
Proof.
  unfold keys. induction names as [|k names IH]; [done|].
  simpl. rewrite filter_cons. destruct (own v k) eqn:Hk; simpl.
  - f_equal. apply IH.
  - apply IH.
Qed.

(** C7, as the code has it. The answer to a successful info query holds
    exactly these properties of the parsed output: title, duration,
    thumbnail, description, uploader, upload_date and view_count, each
    copied when the output has it, and formats, the list of the
    descriptors of all the formats of the output, each reduced to
    format_id, ext, resolution and filesize. *)
Theorem info_projection req result payload :
  answer (info_query req result) = Json 200 payload →
  ∃ v,
    result = ExecOk (Ok v)
    ∧ payload
      = obj [("success", Some (JBool true));
             ("data", Some (obj (project scalar_fields v
                                 ++ [("formats",
                                      Some (JArr (reduced <$> formats_list v)))])))]
    ∧ data_keys (answer (info_query req result))
      = filter (λ k, is_Some (own v k)) scalar_fields ++ ["formats"].
Proof.
  unfold info_query. destruct (req_body req) as [u fmt q].
  destruct (truthy u); [|done]. simpl.
  destruct result as [m|[v|m]]; simpl; try done.
  destruct (info_data v) as [data|m] eqn:Hdata; [|done].
  apply info_data_Ok in Hdata as (_ & _ & ->).
  intros [= <-]. exists v. split; [done|]. split; [done|].
  change (data_keys _)
    with (keys (omap (λ kv : string * option json, pair kv.1 <$> kv.2)
                  (project scalar_fields v
                   ++ [("formats", Some (JArr (reduced <$> formats_list v)))]))).
  by rewrite keys_project.
Qed.

(** ** Names that leave the downloads directory *)



(** ** The end of the child, on every route *)

Lemma settle_settled w s : settled w ≠ None → settled (settle w s) = settled w.
Proof. by destruct w as [acc [st|]]. Qed.

Lemma await_settled w l :
  settled w ≠ None → settled (foldl on_child_event w l) = settled w.
Proof.
  revert w. induction l as [|e l IH]; intros w Hw; [done|].
  assert (settled (on_child_event w e) = settled w) as He.
  { destruct e; simpl; try done; [case_decide|]; by apply settle_settled. }
  simpl. rewrite IH; [done|]. by rewrite He.
Qed.

Lemma await_ended pre e0 rest :
  forallb running pre = true →
  running e0 = false →
  settled (await_child (pre ++ e0 :: rest))
  = match e0 with
    | ChildClose code =>
        Some (if decide (code = Some 0) then Resolved
              else Rejected (or_else (stderr_of pre)
                               ("Process exited with code " +:+ code_text code)))
    | ChildError message => Some (Rejected message)
    | _ => None
    end.
Proof.
  intros Hpre He0. unfold await_child.
  rewrite foldl_app, (await_running pre) by done. simpl.
  destruct e0; try done; rewrite await_settled; simpl; try done;
    by destruct (decide _).
Qed.

(** X1. Once the child has closed or failed to start, whatever events
    come after change nothing: each of the three download routes gives
    the outcome it gives when the trace ends there. *)
Theorem post_ignores_after_end e req now rnd pre e0 rest fs :
  forallb running pre = true →
  running e0 = false →
  post e req now rnd (pre ++ e0 :: rest) fs = post e req now rnd (pre ++ [e0]) fs.
Proof.
  intros Hpre He0.
  assert (∀ completed jobId format outputPath,
    finish req completed jobId format outputPath (pre ++ e0 :: rest) fs
    = finish req completed jobId format outputPath (pre ++ [e0]) fs) as Hfinish.
  { intros. unfold finish. by rewrite !await_ended. }
  destruct req as [[u fmt q] pr h], e; unfold post, download, download_audio,
    download_stream; simpl; destruct (truthy u); try done.
  - by rewrite Hfinish.
  - by rewrite Hfinish.
  - destruct e0; try done.
    + by rewrite !relay_close.
    + by rewrite !relay_error.
Qed.

(** X2. No route answers while the child runs: after output events only,
    the video and audio routes have not answered, and the stream holds the
    relayed output, without a terminal event and not ended. There is no
    timeout in the handlers. *)
Theorem no_answer_while_child_runs e req now rnd trace fs u :
  truthy (url (req_body req)) = Some u →
  forallb running trace = true →
  match e with
  | DownloadStream =>
      answer (post e req now rnd trace fs) = Stream (relayed trace)
      ∧ List.filter terminal (relayed trace) = []
      ∧ ResEnd ∉ relayed trace
  | _ => answer (post e req now rnd trace fs) = NoReply
  end.
Proof.
  intros Hu Hrun.
  assert (∀ e', e' ≠ DownloadStream → answer (post e' req now rnd trace fs) = NoReply)
    as Hjson.
  { intros e' He'. erewrite post_answer_json by done. unfold finish, await_child.
    by rewrite await_running. }
  destruct e; [by apply Hjson|by apply Hjson|]. unfold post.
  destruct (post_answer_stream req now rnd trace fs u Hu) as [-> _].
  rewrite relay_running by done. split; [done|].
  split; [apply filter_terminal_relayed|].
  clear. induction trace as [|[] trace IH]; simpl; try done.
  - by intros ?%elem_of_nil.
  - by intros [?|?]%elem_of_cons.
  - by intros [?|?]%elem_of_cons.
Qed.

(** X3. When the child of a video or audio download cannot be started
    (it emits [error]), the answer is the failure of status 500 with the
    message of that error and the job id, whatever the child wrote to
    stderr before and whatever follows. *)
Theorem spawn_error_is_reported e req now rnd pre message rest fs u :
  truthy (url (req_body req)) = Some u →
  forallb running pre = true →
  e ≠ DownloadStream →
  answer (post e req now rnd (pre ++ ChildError message :: rest) fs)
  = failed message (job_id (job_kind e) now rnd).
Proof.
  intros Hu Hpre He. erewrite post_answer_json by done.
  unfold finish. by rewrite await_ended.
Qed.

(** ** What the stream has written stays *)

Lemma on_stream_event_grows req jobId fs r e :
  log r `prefix_of` log (on_stream_event req jobId fs r e).
Proof.
  unfold on_stream_event. destruct (stopped r); [done|].
  destruct e; simpl; try done; by apply prefix_app_r.
Qed.

Lemma relay_grows req jobId fs trace r :
  log r `prefix_of` log (foldl (on_stream_event req jobId fs) r trace).
Proof.
  revert r. induction trace as [|e trace IH]; intros r; [done|].
  simpl. etrans; [apply on_stream_event_grows|apply IH].
Qed.

(** X4. The event stream only grows: what the handler has written after
    a part of the trace is a prefix of what it has written after more of
    it. Events are sent in the order of arrival and none is taken back. *)
Theorem stream_log_grows req now rnd trace more fs :
  effects (answer (download_stream req now rnd trace fs))
  `prefix_of` effects (answer (download_stream req now rnd (trace ++ more) fs)).
Proof.
  unfold download_stream. destruct (req_body req) as [u fmt q].
  destruct (truthy u); [|done]. simpl. rewrite foldl_app. apply relay_grows.
Qed.

(** ** The argument vector *)

Lemma has_char_app c (a b : string) : has_char c (a +:+ b) = has_char c a || has_char c b.
Proof.
  induction a as [|c' a IH]; [done|].
  rewrite append_cons. simpl. by rewrite IH, orb_assoc.
Qed.

Lemma numeric_ne c d : numeric c = false → numeric d = true → c ≠ d.
Proof. intros Hc Hd ->. congruence. Qed.

Lemma pretty_N_char_numeric x : numeric (pretty_N_char x) = true.
Proof. unfold pretty_N_char. by repeat case_match. Qed.

Lemma pretty_N_go_chars c x s :
  numeric c = false → has_char c s = false → has_char c (pretty_N_go x s) = false.
Proof.
  intros Hc. revert s. induction (N.lt_wf_0 x) as [x _ IH]; intros s Hs.
  assert (x = 0 ∨ 0 < x)%N as [->|?] by lia.
  - by rewrite pretty_N_go_0.
  - rewrite pretty_N_go_step by done. apply IH; [by apply N.div_lt|].
    simpl. rewrite Hs, orb_false_r. apply bool_decide_eq_false.
    apply numeric_ne; [done|apply pretty_N_char_numeric].
Qed.

Lemma pretty_Z_chars c (z : Z) : numeric c = false → has_char c (pretty z) = false.
Proof.
  intros Hc.
  assert (∀ p : positive, has_char c (pretty p) = false) as Hpos.
  { intros p. unfold pretty, pretty_positive, pretty, pretty_N.
    case_decide; [done|]. by apply pretty_N_go_chars. }
  assert (c ≠ "0"%char ∧ c ≠ "-"%char) as [H0 Hm].
  { split; by apply numeric_ne. }
  destruct z as [|p|p]; unfold pretty, pretty_Z.
  - simpl. by rewrite bool_decide_eq_false_2.
  - apply Hpos.
  - rewrite has_char_app, Hpos. simpl. by rewrite bool_decide_eq_false_2.
Qed.

(** A character that is in no segment and is not the slash is not in the
    path. *)
Lemma split_without c s :
  has_char c s = false → Forall (λ seg, has_char c seg = false) (Path.split s).
Proof.
  induction s as [|a s IH]; [by repeat constructor|].
  simpl. intros [Ha Hs]%orb_false_iff. specialize (IH Hs).
  destruct (decide (a = "/"%char)).
  - by constructor.
  - destruct (Path.split s) as [|seg more].
    + repeat constructor. simpl. by rewrite Ha.
    + apply Forall_cons in IH as [Hseg Hmore]. constructor; [|done].
      simpl. by rewrite Ha, Hseg.
Qed.

Lemma push_without c stack seg :
  Forall (λ seg, has_char c seg = false) stack →
  has_char c seg = false →
  Forall (λ seg, has_char c seg = false) (Path.push stack seg).
Proof.
  intros Hstack Hseg. unfold Path.push. repeat case_decide; [done| |by constructor].
  destruct stack; [done|]. by apply Forall_cons in Hstack as [_ ?].
Qed.

Lemma normalize_without c l :
  Forall (λ seg, has_char c seg = false) l →
  Forall (λ seg, has_char c seg = false) (Path.normalize l).
Proof.
  intros Hl. unfold Path.normalize. apply Forall_reverse.
  cut (∀ stack, Forall (λ seg, has_char c seg = false) stack →
                Forall (λ seg, has_char c seg = false) (foldl Path.push stack l)).
  { intros H. apply H. constructor. }
  induction Hl as [|seg l Hseg Hl IH]; intros stack Hstack; [done|].
  simpl. apply IH. by apply push_without.
Qed.

Lemma join_without c p name :
  Forall (λ seg, has_char c seg = false) (Path.segs p) →
  has_char c name = false →
  Forall (λ seg, has_char c seg = false) (Path.segs (Path.join p name)).
Proof.
  intros Hp Hname. unfold Path.join. case_decide; cbn [Path.segs].
  - by apply normalize_without.
  - apply normalize_without, Forall_app. split; [done|by apply split_without].
Qed.

Lemma render_without c p :
  c ≠ "/"%char →
  Forall (λ seg, has_char c seg = false) (Path.segs p) →
  has_char c (Path.render p) = false.
Proof.
  intros Hc Hp. unfold Path.render.
  assert (has_char c "/" = false) as Hslash by (simpl; by rewrite bool_decide_eq_false_2).
  destruct (Path.segs p) as [|seg l]; [done|].
  induction Hp as [|x l' Hx Hl IH]; simpl.
  - by destruct (Path.dir_only p).
  - rewrite bool_decide_eq_false_2 by done. simpl. by rewrite !has_char_app, Hx, IH.
Qed.

(** The output path of a job holds no NUL byte when its parts hold none. *)
Lemma output_path_without_NUL kind now rnd (rest : string) :
  Forall (λ seg, has_char NUL seg = false) (Path.segs __dirname) →
  has_char NUL kind = false →
  has_char NUL rnd = false →
  has_char NUL rest = false →
  has_char NUL (Path.render (Path.join DOWNLOADS_DIR (job_id kind now rnd +:+ rest))) = false.
Proof.
  intros Hdir Hkind Hrnd Hrest. apply render_without; [done|].
  apply join_without.
  - rewrite DOWNLOADS_DIR_eq. cbn [Path.segs]. apply Forall_app.
    split; [by apply normalize_without|by repeat constructor].
  - unfold job_id. by rewrite !has_char_app, Hkind, Hrnd, Hrest, pretty_Z_chars.
Qed.

(** X5. A download route that has a URL starts exactly one child, the
    program [yt-dlp], with [spawn], when the URL, the format, the random
    suffix and the install directory hold no NUL byte: then no argument
    of the vector holds one, and [spawn] takes it (on an argument with a
    NUL byte it throws and starts nothing). The vector asks for
    [--no-playlist] and ends with the URL, and on the video and streaming
    routes it begins with [-f] and one of five fixed selectors, whatever
    [quality] and [format] are. *)
Theorem download_launch_shape e req now rnd trace fs u :
  truthy (url (req_body req)) = Some u →
  has_char NUL u = false →
  has_char NUL (default_to (default_format e) (format (req_body req))) = false →
  has_char NUL rnd = false →
  Forall (λ seg, has_char NUL seg = false) (Path.segs __dirname) →
  ∃ args,
    launched (post e req now rnd trace fs) = [Spawn "yt-dlp" args]
    ∧ spawn_takes args = true
    ∧ "--no-playlist" ∈ args
    ∧ last args = Some u
    ∧ (e ≠ DownloadAudio → ∃ selector, take 2 args = ["-f"; selector] ∧ selector ∈ selectors).
Proof.
  intros Hu Hurl Hformat Hrnd Hdir.
  assert (∀ kind rest, has_char NUL kind = false → has_char NUL rest = false →
    has_char NUL (Path.render (Path.join DOWNLOADS_DIR (job_id kind now rnd +:+ rest)))
    = false) as Hpath by (intros; by apply output_path_without_NUL).
  destruct req as [[u' fmt q] pr h], e; simpl in Hformat; with_url Hu.
  - eexists. split; [done|]. split.
    { unfold spawn_takes. simpl. rewrite Hurl, Hformat.
      change (job_id "video" now rnd +:+ "." +:+ default_to "mp4" fmt)
        with (job_id "video" now rnd +:+ ("." +:+ default_to "mp4" fmt)).
      rewrite Hpath; [|done|by rewrite has_char_app, Hformat].
      unfold video_formatStr. by repeat case_decide. }
    split; [set_solver|]. split; [done|]. intros _.
    eexists. split; [done|]. unfold video_formatStr, selectors.
    repeat case_decide; set_solver.
  - eexists. split; [done|]. split.
    { unfold spawn_takes. simpl. rewrite Hurl, Hformat.
      change (job_id "audio" now rnd +:+ "." +:+ default_to "mp3" fmt)
        with (job_id "audio" now rnd +:+ ("." +:+ default_to "mp3" fmt)).
      by rewrite Hpath; [|done|by rewrite has_char_app, Hformat]. }
    split; [set_solver|]. by split.
  - eexists. split; [done|]. split.
    { unfold spawn_takes. simpl. rewrite Hurl, Hformat, Hpath by done.
      by case_decide. }
    split; [set_solver|]. split; [done|]. intros _.
    eexists. split; [done|]. unfold selectors. case_decide; set_solver.
Qed.

(** ** Deleting a file *)

(** X7. DELETE [/api/file/] on a name that names a file answers 200 and
    removes that file and nothing else. After it, GET and DELETE on the
    same name answer 404, and the second DELETE changes nothing. *)
Theorem delete_then_gone filename fs f :
  stat fs (Path.join DOWNLOADS_DIR filename) = Some f →
  let fs' := delete (Path.segs (Path.join DOWNLOADS_DIR filename)) fs in
  delete_file filename fs
  = (Json 200 (obj [("success", Some (JBool true));
                    ("message", Some (JStr "File deleted successfully"))]), fs')
  ∧ (∀ transfer_ok, get_file filename transfer_ok fs' = not_found)
  ∧ delete_file filename fs' = (not_found, fs').
Proof.
  intros Hnode%stat_Some fs'.
  pose proof (node_at_deleted _ _ _ Hnode) as Hgone. fold fs' in Hgone.
  split; [|split].
  - unfold delete_file, existsSync, unlinkSync. rewrite Hnode.
    by rewrite bool_decide_eq_true_2.
  - intros b. unfold get_file, existsSync. rewrite Hgone.
    by rewrite bool_decide_eq_false_2 by (by intros [??]).
  - unfold delete_file, existsSync. rewrite Hgone.
    by rewrite bool_decide_eq_false_2 by (by intros [??]).
Qed.

(** ** Names that stay in the downloads directory *)

Lemma foldl_push_no_parent l stack :
  ".." ∉ l →
  foldl Path.push stack l = reverse (filter (λ seg, ¬ (seg = "" ∨ seg = ".")) l) ++ stack.
Proof.
  revert stack. induction l as [|seg l IH]; intros stack Hl; [done|].
  apply not_elem_of_cons in Hl as [Hseg Hl]. simpl. rewrite IH by done.
  unfold Path.push. rewrite filter_cons. case_decide.
  - by rewrite decide_False by tauto.
  - rewrite decide_False by done. rewrite decide_True by done.
    by rewrite reverse_cons, <-app_assoc.
Qed.

Lemma normalize_segs_DOWNLOADS_DIR :
  Path.normalize (Path.segs DOWNLOADS_DIR) = Path.segs DOWNLOADS_DIR.
Proof.
  rewrite DOWNLOADS_DIR_eq. cbn [Path.segs].
  rewrite <-(normalize_snoc _ "downloads") by done. apply normalize_idemp.
Qed.

Lemma join_stays filename :
  ".." ∉ Path.split filename →
  Path.segs DOWNLOADS_DIR `prefix_of` Path.segs (Path.join DOWNLOADS_DIR filename).
Proof.
  intros Hup. unfold Path.join. case_decide; cbn [Path.segs].
  - by rewrite normalize_segs_DOWNLOADS_DIR.
  - unfold Path.normalize. rewrite foldl_app, foldl_push_no_parent by done.
    rewrite reverse_app, reverse_involutive.
    fold (Path.normalize (Path.segs DOWNLOADS_DIR)).
    rewrite normalize_segs_DOWNLOADS_DIR. by apply prefix_app_r.
Qed.

(** X8. A name without a parent-directory component resolves to a path
    in the downloads directory, so that DELETE [/api/file/] on such a name
    can only change the store: any path whose file it changes is below
    the downloads directory. *)
Theorem plain_name_stays_in_store filename fs k :
  ".." ∉ Path.split filename →
  Path.segs DOWNLOADS_DIR `prefix_of` Path.segs (Path.join DOWNLOADS_DIR filename)
  ∧ ((delete_file filename fs).2 !! k ≠ fs !! k → Path.segs DOWNLOADS_DIR `prefix_of` k).
Proof.
  intros Hup. pose proof (join_stays filename Hup) as Hin. split; [done|].
  unfold delete_file, unlinkSync.
  destruct (existsSync _ _); [|done]. simpl.
  destruct (node_at fs _) as [[f|d]|]; [|done..]. simpl. intros Hk.
  destruct (decide (k = Path.segs (Path.join DOWNLOADS_DIR filename))) as [->|Hne]; [done|].
  by rewrite lookup_delete_file_ne in Hk.
Qed.

(** ** Sweeps in a row *)

Lemma elem_of_entry_paths (fs : filesystem) k :
  k ∈ (λ n, Path.segs DOWNLOADS_DIR ++ [n]) <$> readdirSync fs DOWNLOADS_DIR
  ↔ ∃ n, k = Path.segs DOWNLOADS_DIR ++ [n] ∧ Path.valid_name n = true
         ∧ is_Some (nodes fs !! k).
Proof.
  rewrite list_elem_of_fmap. split.
  - intros (n & -> & [??]%elem_of_readdirSync). by exists n.
  - intros (n & -> & ? & ?). exists n. split; [done|]. by apply elem_of_readdirSync.
Qed.

(** A directory that is not old later is not old now. *)
Lemma sweepable_earlier now later fs :
  now ≤ later → sweepable later fs = true → sweepable now fs = true.
Proof.
  intros Hle Hsw. apply sweepable_spec. intros n Hn.
  apply (proj1 (sweepable_spec later fs) Hsw) in Hn. unfold old_folder in *.
  destruct (nodes fs !! _) as [[f|d]|]; try done.
  apply bool_decide_eq_false in Hn. apply bool_decide_eq_false. lia.
Qed.

(** The sweep leaves the directories as they are. *)
Lemma sweepable_kept now later fs fs' paths :
  (∀ k, nodes fs' !! k = nodes fs !! k ≫= kept now paths k) →
  sweepable later fs = true → sweepable later fs' = true.
Proof.
  intros Hlook Hsw. apply sweepable_spec. intros n [Hv [x Hx]]%elem_of_readdirSync.
  unfold old_folder. rewrite Hx. destruct x as [f|d]; [done|].
  rewrite Hlook in Hx. destruct (nodes fs !! _) as [[g|d']|] eqn:Hg; simpl in Hx.
  - by case_decide.
  - injection Hx as ->.
    assert (old_folder later fs n = false) as Hn.
    { apply (proj1 (sweepable_spec later fs) Hsw), elem_of_readdirSync.
      split; [done|]. by rewrite Hg. }
    unfold old_folder in Hn. by rewrite Hg in Hn.
  - done.
Qed.

(** X9. A sweep after a sweep is the later sweep, when no entry of the
    downloads directory is a directory older than two hours at the later
    time: sweeping at [now] and then at a later time leaves the file
    system that one sweep at the later time leaves. In particular a
    second sweep at the same time changes nothing. *)
Theorem sweep_after_sweep now later fs :
  now ≤ later →
  sweepable later fs = true →
  ∃ fs1 fs2,
    cleanupOldFiles now fs = (fs1, None)
    ∧ cleanupOldFiles later fs = (fs2, None)
    ∧ cleanupOldFiles later fs1 = (fs2, None).
Proof.
  intros Hlater Hsw.
  pose proof (sweepable_earlier now later fs Hlater Hsw) as Hsw0.
  destruct (cleanupOldFiles_lookup now fs Hsw0) as (fs1 & H1 & L1).
  destruct (cleanupOldFiles_lookup later fs Hsw) as (fs2 & H2 & L2).
  destruct (cleanupOldFiles_lookup later fs1) as (fs12 & H12 & L12).
  { by eapply sweepable_kept. }
  exists fs1, fs2. split; [done|]. split; [done|].
  rewrite H12. f_equal. apply filesystem_eq, map_eq. intros k.
  rewrite L12, L2. pose proof (L1 k) as Hk1. rewrite Hk1.
  destruct (nodes fs !! k) as [[g|d]|] eqn:Hg; [|done..]. simpl in *.
  destruct (decide (now - mtimeMs g > twoHours ∧ _)) as [[Hold Hin]|Hno]; simpl.
  - rewrite decide_True; [done|]. split; [lia|done].
  - destruct (decide (later - mtimeMs g > twoHours ∧ _)) as [[Hold Hin]|Hno1];
      destruct (decide (later - mtimeMs g > twoHours ∧ _)) as [[Hold' Hin']|Hno2];
      try done.
    + destruct Hno2. split; [done|]. apply elem_of_entry_paths.
      apply elem_of_entry_paths in Hin as (n & -> & Hv & _). exists n. by rewrite Hg.
    + destruct Hno1. split; [done|]. apply elem_of_entry_paths.
      apply elem_of_entry_paths in Hin' as (n & -> & Hv & _). exists n. by rewrite Hk1.
Qed.

(** ** When an info query succeeds *)



(** ** The listing *)

Lemma file_entry_Ok req birthtime fs n :
  n ∈ readdirSync fs DOWNLOADS_DIR →
  ∃ x, node_at fs (Path.join DOWNLOADS_DIR n) = Some x
       ∧ file_entry req birthtime fs n = Ok (entry_of req birthtime n x).
Proof.
  intros [Hv [x Hx]]%elem_of_readdirSync. exists x.
  rewrite <-node_at_entry in Hx by done. split; [done|].
  unfold file_entry, statSync. rewrite Hx. simpl.
  by rewrite join_DOWNLOADS_DIR.
Qed.

Lemma mapM_file_entry req birthtime fs names :
  (∀ n, n ∈ names → n ∈ readdirSync fs DOWNLOADS_DIR) →
  ∃ entries,
    mapM (file_entry req birthtime fs) names = Ok entries
    ∧ omap (string_field "name") entries = names
    ∧ Forall2 (λ n entry, ∃ x, node_at fs (Path.join DOWNLOADS_DIR n) = Some x
                               ∧ entry = entry_of req birthtime n x) names entries.
Proof.
  induction names as [|n names IH]; intros Hall.
  { by exists []. }
  destruct IH as (entries & Hrun & Hnames & Hentries).
  { intros m Hm. apply Hall. by right. }
  destruct (file_entry_Ok req birthtime fs n) as (x & Hx & Hn); [apply Hall; by left|].
  exists (entry_of req birthtime n x :: entries). split; [|split].
  - simpl. by rewrite Hn, Hrun.
  - simpl. f_equal. exact Hnames.
  - constructor; [by exists x|done].
Qed.

(** X11. GET [/api/files] never fails: it answers 200 with one entry
    for each entry of the downloads directory, regular file or
    subdirectory, in the order of the directory. Each entry has the name,
    the size that [stat] reports for the node (the length of the content
    of a regular file), and the URL of GET [/api/file/] for that name. *)
Theorem listing_has_every_entry req birthtime fs :
  ∃ entries,
    list_files req birthtime fs
    = Json 200 (obj [("success", Some (JBool true)); ("files", Some (JArr entries))])
    ∧ listed_names (list_files req birthtime fs) = readdirSync fs DOWNLOADS_DIR
    ∧ Forall2 (λ n entry, ∃ x, node_at fs (Path.join DOWNLOADS_DIR n) = Some x
                               ∧ entry = entry_of req birthtime n x)
        (readdirSync fs DOWNLOADS_DIR) entries.
Proof.
  destruct (mapM_file_entry req birthtime fs (readdirSync fs DOWNLOADS_DIR))
    as (entries & Hrun & Hnames & Hentries); [done|].
  exists entries. unfold list_files. rewrite Hrun. done.
Qed.

Lemma listed_names_eq req birthtime fs :
  listed_names (list_files req birthtime fs) = readdirSync fs DOWNLOADS_DIR.
Proof.
  destruct (mapM_file_entry req birthtime fs (readdirSync fs DOWNLOADS_DIR))
    as (entries & Hrun & Hnames & _); [done|].
  unfold list_files. by rewrite Hrun.
Qed.

Lemma hidden_entry n :
  Path.valid_name n = true → hidden (Path.join DOWNLOADS_DIR n) = startsWith n ".".
Proof.
  intros Hn. rewrite join_DOWNLOADS_DIR by done. unfold hidden. cbn [Path.segs].
  by rewrite last_snoc.
Qed.

Lemma get_file_regular filename fs f :
  stat fs (Path.join DOWNLOADS_DIR filename) = Some f →
  hidden (Path.join DOWNLOADS_DIR filename) = false →
  get_file filename true fs = Attachment filename (content f).
Proof.
  intros Hnode%stat_Some Hh. unfold get_file, existsSync. rewrite Hnode, Hh.
  by rewrite bool_decide_eq_true_2.
Qed.

Lemma get_file_folder filename transfer_ok fs d :
  node_at fs (Path.join DOWNLOADS_DIR filename) = Some (Folder d) →
  get_file filename transfer_ok fs = download_failed.
Proof.
  intros Hnode. unfold get_file, existsSync. rewrite Hnode.
  by rewrite bool_decide_eq_true_2.
Qed.

Lemma get_file_found filename transfer_ok fs :
  existsSync fs (Path.join DOWNLOADS_DIR filename) = true →
  get_file filename transfer_ok fs ≠ not_found.
Proof.
  intros Hex. unfold get_file. rewrite Hex. simpl.
  destruct (node_at fs _) as [[f|d]|]; [destruct (_ && _)|..]; done.
Qed.

(** What GET sends is the content of the regular file at the path, whose
    name does not begin with a dot. *)
Lemma get_file_Attachment filename fs name data :
  get_file filename true fs = Attachment name data →
  ∃ f, stat fs (Path.join DOWNLOADS_DIR filename) = Some f
       ∧ hidden (Path.join DOWNLOADS_DIR filename) = false
       ∧ name = filename ∧ data = content f.
Proof.
  unfold get_file, stat. destruct (existsSync _ _); [|done]. simpl.
  destruct (node_at fs _) as [[f|d]|]; [|done..].
  destruct (hidden _); [done|]. simpl. intros [= <- <-]. by exists f.
Qed.

(** X12. The listing and the retrieval agree on the regular files whose
    name does not begin with a dot: GET [/api/file/] sends a file for a
    plain file name exactly when the name is in the listing, its entry
    is a regular file, and the name does not begin with a dot. A listed
    subdirectory and a listed name that begins with a dot are never
    sent. *)
Theorem listed_iff_fetched req birthtime fs name :
  Path.valid_name name = true ∧ (∃ data, get_file name true fs = Attachment name data)
  ↔ name ∈ listed_names (list_files req birthtime fs)
    ∧ is_Some (stat fs (Path.join DOWNLOADS_DIR name))
    ∧ startsWith name "." = false.
Proof.
  rewrite listed_names_eq, elem_of_readdirSync. split.
  - intros [Hv [data (f & Hf & Hh & _ & _)%get_file_Attachment]].
    rewrite hidden_entry in Hh by done. split; [|by rewrite Hf].
    split; [done|]. apply stat_Some in Hf. rewrite node_at_entry in Hf by done.
    by rewrite Hf.
  - intros ([Hv _] & [f Hf] & Hdot). split; [done|]. exists (content f).
    apply get_file_regular; [done|]. by rewrite hidden_entry.
Qed.

(** X13. Deleting a listed regular file takes it, and only it, out of
    the listing: DELETE [/api/file/] on its name answers 200, and the
    listing afterwards has the other names and no more. DELETE on a
    listed subdirectory answers 500 with the error of [unlink], and
    changes nothing. *)
Theorem delete_updates_listing req birthtime fs name other :
  name ∈ listed_names (list_files req birthtime fs) →
  match node_at fs (Path.join DOWNLOADS_DIR name) with
  | Some (Regular _) =>
      status_of (delete_file name fs).1 = Some 200
      ∧ (other ∈ listed_names (list_files req birthtime (delete_file name fs).2)
         ↔ other ∈ listed_names (list_files req birthtime fs) ∧ other ≠ name)
  | _ =>
      delete_file name fs
      = (Json 500 (obj [("success", Some (JBool false));
                        ("error",
                         Some (JStr (EISDIR "unlink" (Path.join DOWNLOADS_DIR name))))]),
         fs)
  end.
Proof.
  rewrite !listed_names_eq, !elem_of_readdirSync. intros [Hv [x Hx]].
  rewrite <-node_at_entry in Hx by done.
  unfold delete_file, existsSync, unlinkSync. rewrite Hx.
  rewrite bool_decide_eq_true_2 by done. simpl. destruct x as [f|d]; [|done].
  simpl. split; [done|].
  rewrite join_DOWNLOADS_DIR by done. simpl. rewrite !elem_of_readdirSync, nodes_delete.
  destruct (decide (other = name)) as [->|Hne].
  - rewrite lookup_delete_eq. split; [by intros [_ [??]]|by intros [_ ?]].
  - rewrite lookup_delete_ne; [tauto|].
    intros Heq. apply app_inv_head in Heq. by injection Heq.
Qed.

(** X17. After a sweep that runs to its end the listing has the entries
    that are not older than two hours and no other: when no entry is a
    directory older than two hours, a name is listed after the sweep
    exactly when it was listed before and its node was last modified at
    most two hours before the sweep. *)
Theorem sweep_updates_listing req birthtime now fs :
  sweepable now fs = true →
  ∃ fs', cleanupOldFiles now fs = (fs', None) ∧
    ∀ name,
      name ∈ listed_names (list_files req birthtime fs')
      ↔ ∃ x, name ∈ listed_names (list_files req birthtime fs)
             ∧ node_at fs (Path.join DOWNLOADS_DIR name) = Some x
             ∧ now - node_mtimeMs x ≤ twoHours.
Proof.
  intros Hsw.
  destruct (cleanupOldFiles_lookup now fs Hsw) as (fs' & Hrun & Hlook).
  exists fs'. split; [done|]. intros name.
  rewrite !listed_names_eq, !elem_of_readdirSync. split.
  - intros [Hv [y Hy]]. rewrite Hlook in Hy.
    destruct (nodes fs !! (Path.segs DOWNLOADS_DIR ++ [name])) as [x|] eqn:Hx; [|done].
    exists x. split; [apply elem_of_readdirSync; split; [done|by rewrite Hx]|].
    rewrite node_at_entry by done. split; [done|].
    destruct x as [f|d]; simpl in *.
    + case_decide as Hd; [done|].
      destruct (decide (now - mtimeMs f > twoHours)); [|lia].
      destruct Hd. split; [done|]. apply elem_of_entry_paths.
      exists name. by rewrite Hx.
    + assert (old_folder now fs name = false) as Hn.
      { apply (proj1 (sweepable_spec now fs) Hsw), elem_of_readdirSync.
        split; [done|]. by rewrite Hx. }
      unfold old_folder in Hn. rewrite Hx in Hn.
      apply bool_decide_eq_false in Hn. lia.
  - intros (x & [Hv _]%elem_of_readdirSync & Hx & Hnew).
    rewrite node_at_entry in Hx by done.
    split; [done|]. rewrite Hlook, Hx. simpl. destruct x as [f|d]; simpl; [|done].
    rewrite decide_False; [done|]. intros [? _]. simpl in Hnew. lia.
Qed.

(** ** Job ids and output files *)

Lemma app_char_inj c (a b r1 r2 : string) :
  has_char c a = false → has_char c b = false →
  a +:+ String c r1 = b +:+ String c r2 → a = b ∧ r1 = r2.
Proof.
  revert b. induction a as [|x a IH]; intros [|y b]; simpl;
    intros Ha Hb Heq.
  - by injection Heq.
  - rewrite append_cons in Heq. injection Heq as -> _.
    apply orb_false_iff in Hb as [Hb _]. by apply bool_decide_eq_false in Hb.
  - rewrite append_cons in Heq. injection Heq as -> _.
    apply orb_false_iff in Ha as [Ha _]. by apply bool_decide_eq_false in Ha.
  - rewrite !append_cons in Heq. injection Heq as -> Heq.
    apply orb_false_iff in Ha as [_ Ha]. apply orb_false_iff in Hb as [_ Hb].
    by destruct (IH b Ha Hb Heq) as [-> ->].
Qed.

(** X14. Job ids tell jobs apart: two ids of the same kind are equal
    only when the time and the random suffix are both equal, and an id of
    a video job is never the id of an audio job. *)
Theorem job_id_inj kind now1 rnd1 now2 rnd2 :
  (job_id kind now1 rnd1 = job_id kind now2 rnd2 ↔ now1 = now2 ∧ rnd1 = rnd2)
  ∧ job_id "video" now1 rnd1 ≠ job_id "audio" now2 rnd2.
Proof.
  split; [split|by unfold job_id].
  - unfold job_id. intros Heq. apply (inj (String.app kind)) in Heq.
    change ("_" +:+ ?x) with (String "_" x) in Heq. injection Heq as Heq.
    apply app_char_inj in Heq as [Hnow ->]; [|by apply pretty_Z_chars..].
    by apply (inj pretty) in Hnow.
  - by intros [-> ->].
Qed.

Lemma split_plain (s : string) : has_char "/" s = false → Path.split s = [s].
Proof.
  induction s as [|c s IH]; [done|]. simpl.
  intros [Hc Hs]%orb_false_iff. apply bool_decide_eq_false in Hc.
  rewrite decide_False by done. by rewrite IH.
Qed.

Lemma split_app_slash (a b : string) :
  has_char "/" a = false → Path.split (a +:+ String "/" b) = a :: Path.split b.
Proof.
  induction a as [|c a IH]; [done|]. rewrite append_cons. simpl.
  intros [Hc Ha]%orb_false_iff. apply bool_decide_eq_false in Hc.
  rewrite decide_False by done. by rewrite IH.
Qed.

Lemma job_id_plain e now rnd :
  has_char "/" rnd = false → has_char "/" (job_id (job_kind e) now rnd) = false.
Proof.
  intros Hrnd. unfold job_id. rewrite !has_char_app, Hrnd, pretty_Z_chars by done.
  by destruct e.
Qed.

Lemma output_name_valid e req now rnd :
  has_char "/" rnd = false →
  (e ≠ DownloadStream →
   has_char "/" (default_to (default_format e) (format (req_body req))) = false) →
  Path.valid_name (output_name e req now rnd) = true.
Proof.
  intros Hrnd Hformat. apply valid_name_spec. split.
  - apply split_plain. pose proof (job_id_plain e now rnd Hrnd) as Hid.
    destruct e; unfold output_name; rewrite !has_char_app; simpl in *;
      rewrite ?Hid, ?Hformat by done; done.
  - by destruct e.
Qed.

Lemma foldr_render (l : list string) (tail : string) :
  foldr (λ seg acc, "/" +:+ seg +:+ acc) tail l
  = foldr (λ seg acc, "/" +:+ seg +:+ acc) "" l +:+ tail.
Proof.
  induction l as [|x l IH]; simpl; [done|]. by rewrite IH, !append_assoc.
Qed.

Lemma render_entry l n :
  l ≠ [] →
  Path.render (Path.Make (l ++ [n]) false) = Path.render (Path.Make l false) +:+ "/" +:+ n.
Proof.
  intros Hl. unfold Path.render. cbn [Path.segs Path.dir_only].
  destruct l as [|seg l]; [done|]. destruct ((seg :: l) ++ [n]) eqn:E; [done|].
  rewrite <-E. clear E. rewrite foldr_app, foldr_render. simpl.
  by rewrite append_nil_r.
Qed.

(** X15. When the random suffix and the format have no slash, the file
    that a download route tells yt-dlp to write is an entry of the
    downloads directory: the argument after [-o] is the path of the
    directory, a slash, and the job id with the format (on the streaming
    route, with the extension template). *)
Theorem output_file_is_an_entry e req now rnd trace fs u :
  truthy (url (req_body req)) = Some u →
  has_char "/" rnd = false →
  (e ≠ DownloadStream →
   has_char "/" (default_to (default_format e) (format (req_body req))) = false) →
  Path.join DOWNLOADS_DIR (output_name e req now rnd)
  = Path.Make (Path.segs DOWNLOADS_DIR ++ [output_name e req now rnd]) false
  ∧ ∃ before after,
      launched (post e req now rnd trace fs)
      = [Spawn "yt-dlp"
           (before ++ ["-o"; Path.render DOWNLOADS_DIR +:+ "/" +:+ output_name e req now rnd]
            ++ after)].
Proof.
  intros Hu Hrnd Hformat.
  pose proof (output_name_valid e req now rnd Hrnd Hformat) as Hv.
  pose proof (join_DOWNLOADS_DIR _ Hv) as Hjoin. split; [done|].
  assert (Path.render (Path.join DOWNLOADS_DIR (output_name e req now rnd))
          = Path.render DOWNLOADS_DIR +:+ "/" +:+ output_name e req now rnd) as Hrender.
  { rewrite Hjoin, render_entry.
    - by rewrite DOWNLOADS_DIR_eq.
    - rewrite DOWNLOADS_DIR_eq. simpl. by intros [_ ?]%app_eq_nil. }
  destruct req as [[u' fmt q] pr h], e; unfold output_name in *; simpl in *;
    with_url Hu; rewrite Hrender.
  - by eexists [_; _; _; _], [_; _].
  - by eexists [_; _; _; _; _], [_; _].
  - by eexists [_; _; _; _], [_; _; _].
Qed.

Lemma push_proper stack seg :
  seg ≠ "" → seg ≠ "." → seg ≠ ".." → Path.push stack seg = seg :: stack.
Proof.
  intros. unfold Path.push. rewrite decide_False by (by intros [?|?]).
  by rewrite decide_False.
Qed.

Lemma push_parent stack : Path.push stack ".." = tail stack.
Proof. done. Qed.

Lemma join_format_parent e now rnd :
  has_char "/" rnd = false →
  let jobId := job_id (job_kind e) now rnd in
  let outputPath := Path.join DOWNLOADS_DIR (jobId +:+ "." +:+ "/../../server.js") in
  outputPath = Path.Make (Path.normalize (Path.segs __dirname) ++ ["server.js"]) false
  ∧ ¬ (Path.segs DOWNLOADS_DIR `prefix_of` Path.segs outputPath).
Proof.
  intros Hrnd jobId outputPath.
  assert (outputPath
          = Path.Make (Path.normalize (Path.segs __dirname) ++ ["server.js"]) false) as ->.
  { subst outputPath. unfold Path.join.
    assert (has_char "/" (jobId +:+ ".") = false) as Hplain.
    { rewrite has_char_app. subst jobId. by rewrite job_id_plain. }
    assert (jobId +:+ "." +:+ "/../../server.js"
            = (jobId +:+ ".") +:+ String "/" "../../server.js") as ->
      by by rewrite append_assoc.
    rewrite decide_False by (subst jobId; by destruct e).
    rewrite split_app_slash by done.
    change (Path.split "../../server.js") with [".."; ".."; "server.js"].
    rewrite normalize_DOWNLOADS_DIR.
    assert (Path.normalize
              (Path.segs __dirname ++ ["downloads"; jobId +:+ "."; ".."; ".."; "server.js"])
            = Path.normalize (Path.segs __dirname) ++ ["server.js"]) as ->.
    { assert (jobId +:+ "." ≠ "" ∧ jobId +:+ "." ≠ "." ∧ jobId +:+ "." ≠ "..")
        as (? & ? & ?) by (subst jobId; by destruct e).
      unfold Path.normalize. rewrite foldl_app. simpl.
      rewrite (push_proper _ "downloads"), (push_proper _ (jobId +:+ ".")) by done.
      rewrite !push_parent. simpl. rewrite push_proper by done.
      by rewrite reverse_cons. }
    done. }
  split; [done|]. rewrite DOWNLOADS_DIR_eq. simpl. intros [k Hk].
  rewrite <-app_assoc in Hk. by apply app_inv_head in Hk.
Qed.

(** X16. The format of the request is joined into the output path as it
    is. With the format [/../../server.js], and for every job whose suffix
    has no slash, the video and audio routes give yt-dlp, after [-o], a
    path that is not in the downloads directory: [server.js] beside it. *)
Theorem format_leaves_store e req now rnd trace fs u :
  truthy (url (req_body req)) = Some u →
  format (req_body req) = Some "/../../server.js" →
  e ≠ DownloadStream →
  has_char "/" rnd = false →
  let outside := Path.Make (Path.normalize (Path.segs __dirname) ++ ["server.js"]) false in
  ¬ (Path.segs DOWNLOADS_DIR `prefix_of` Path.segs outside)
  ∧ ∃ before after,
      launched (post e req now rnd trace fs)
      = [Spawn "yt-dlp" (before ++ ["-o"; Path.render outside] ++ after)].
Proof.
  intros Hu Hformat He Hrnd outside.
  destruct (join_format_parent e now rnd Hrnd) as [Hjoin Hout].
  rewrite Hjoin in Hout. split; [done|].
  destruct req as [[u' fmt q] pr h]. simpl in Hformat. subst fmt.
  destruct e; try done; with_url Hu; simpl in Hjoin; rewrite Hjoin.
  - by eexists [_; _; _; _], [_; _].
  - by eexists [_; _; _; _; _], [_; _].
Qed.

(** ** From a job to its file *)

Lemma startsWith_head s c p : startsWith s (String c p) = true → ∃ t, s = String c t.
Proof.
  unfold startsWith. destruct s as [|c' s]; simpl; [done|].
  destruct (ascii_dec c c') as [->|]; [by eexists|done].
Qed.

(** A name that begins with a job id does not begin with a dot. *)
Lemma job_file_not_hidden e now rnd fileName :
  startsWith fileName (job_id (job_kind e) now rnd) = true → startsWith fileName "." = false.
Proof.
  unfold job_id. destruct e; simpl job_kind; rewrite append_cons;
    intros [t ->]%startsWith_head; done.
Qed.

(** The file name a job reports begins with the job id, and its path
    exists; it is the name of an entry of the downloads directory when no
    slash came in with the request. *)
Lemma reported_file_found e req now rnd trace fs fileName :
  reported_file (answer (post e req now rnd trace fs)) = Some fileName →
  startsWith fileName (job_id (job_kind e) now rnd) = true
  ∧ existsSync fs (Path.join DOWNLOADS_DIR fileName) = true
  ∧ (has_char "/" rnd = false →
     (e ≠ DownloadStream →
      has_char "/" (default_to (default_format e) (format (req_body req))) = false) →
     Path.valid_name fileName = true).
Proof.
  intros Hfile. destruct (truthy (url (req_body req))) as [u|] eqn:Hu.
  2:{ by rewrite no_url_no_file in Hfile. }
  assert (∀ e', e' ≠ DownloadStream →
    reported_file (answer (post e' req now rnd trace fs)) = Some fileName →
    startsWith fileName (job_id (job_kind e') now rnd) = true
    ∧ existsSync fs (Path.join DOWNLOADS_DIR fileName) = true
    ∧ (has_char "/" rnd = false →
       (e' ≠ DownloadStream →
        has_char "/" (default_to (default_format e') (format (req_body req))) = false) →
       Path.valid_name fileName = true)) as Hjson.
  { intros e' He' Hfile'.
    destruct (json_reported_file e' req now rnd trace fs u fileName) as [Hname Hex];
      try done.
    split; [rewrite Hname; apply startsWith_app|]. split; [done|].
    intros Hrnd Hformat. pose proof (output_name_valid e' req now rnd Hrnd Hformat) as Hv.
    rewrite Hname. by destruct e'. }
  destruct e; [by apply Hjson|by apply Hjson|].
  destruct (stream_reported_file req now rnd trace fs u fileName) as [code Hc]; try done.
  pose proof (closing_frame_listed _ _ _ _ _ Hc) as [Hv Hsome]%elem_of_readdirSync.
  split; [by eapply closing_frame_file|]. split; [|done].
  apply bool_decide_eq_true. by rewrite node_at_entry.
Qed.

(** X6. A file name that a download job reports can be asked for: on the
    file system the job saw, the path that GET [/api/file/] makes of it
    exists, so that the answer is never 404. When that path names a
    directory, the answer is the failure 500. When it names a regular
    file, and the random suffix and (on the video and audio routes) the
    format have no slash, GET sends the content of that file. *)
Theorem reported_file_can_be_fetched e req now rnd trace fs fileName transfer_ok :
  reported_file (answer (post e req now rnd trace fs)) = Some fileName →
  existsSync fs (Path.join DOWNLOADS_DIR fileName) = true
  ∧ get_file fileName transfer_ok fs ≠ not_found
  ∧ (∀ d, node_at fs (Path.join DOWNLOADS_DIR fileName) = Some (Folder d) →
          get_file fileName transfer_ok fs = download_failed)
  ∧ (∀ f, stat fs (Path.join DOWNLOADS_DIR fileName) = Some f →
          has_char "/" rnd = false →
          (e ≠ DownloadStream →
           has_char "/" (default_to (default_format e) (format (req_body req))) = false) →
          get_file fileName true fs = Attachment fileName (content f)).
Proof.
  intros Hfile.
  destruct (reported_file_found e req now rnd trace fs fileName Hfile)
    as (Hprefix & Hex & Hvalid).
  split; [done|]. split; [by apply get_file_found|].
  split; [intros d; apply get_file_folder|].
  intros f Hf Hrnd Hformat. apply get_file_regular; [done|].
  rewrite hidden_entry by by apply Hvalid.
  by eapply job_file_not_hidden.
Qed.

Transparent DOWNLOADS_DIR.

End Server.

(** ** The properties at concrete inputs *)

(** C1. An info query whose URL is [$(reboot)] starts its child with
    [exec]: the URL is written into a command line that the shell
    interprets, and it is not an element of an argument vector. The
    download routes use [spawn] (lemma [post_launch_literal]). *)
Theorem info_query_goes_through_shell :
  let req := Request (Body (Some "$(reboot)") None None) "http" "localhost:3000" in
  launched (info_query req (ExecError "Command failed"))
  = [Exec ("yt-dlp --dump-json " +:+ dquote +:+ "$(reboot)" +:+ dquote)]
  ∧ ¬ Exists (literal_argv "$(reboot)") (launched (info_query req (ExecError "Command failed"))).
Proof.
  split; [done|]. intros [H|H]%Exists_cons.
  - by apply Exec_not_literal in H.
  - by apply Exists_nil in H.
Qed.

(** C4. A streamed download whose child cannot be started (the child
    emits [error], here ENOENT) writes no terminal event and does not end
    the stream: the error has no listener and escapes. The video route, on
    the same event, answers with the failure. *)
Theorem stream_spawn_failure_has_no_terminal_event :
  let trace := [ChildError "spawn yt-dlp ENOENT"] in
  let out := download_stream app a_request a_time a_suffix trace ∅ in
  answer out = Stream []
  ∧ List.filter terminal (effects (answer out)) = []
  ∧ (ResEnd ∉ effects (answer out))
  ∧ uncaught out = Some "spawn yt-dlp ENOENT"
  ∧ answer (download app a_request a_time a_suffix trace ∅)
    = failed "spawn yt-dlp ENOENT" "video_1700007200001_k3j9x0a1b".
Proof.
  vm_compute. repeat split; try done. by intros ?%elem_of_nil.
Qed.

(** C8. The sweep of a downloads directory that holds a directory older
    than two hours ends there with the error of [unlink]: the old file
    that the listing has after the directory is not visited and is still
    there, and so is the old file in the directory, which the sweep never
    looks at. *)
Theorem sweep_stops_at_old_directory :
  let swept := cleanupOldFiles app a_time a_store_with_folder in
  readdirSync a_store_with_folder (DOWNLOADS_DIR app)
  = ["video_1699991000000_q1w2e3r4t.mp4"; "video_1699992000000_m5n6b7v8c.mp4"]
  ∧ swept.2
    = Some ("EISDIR: illegal operation on a directory, "
            +:+ "unlink '/app/downloads/video_1699991000000_q1w2e3r4t.mp4'")
  ∧ stat app swept.1 (Path.join (DOWNLOADS_DIR app) "video_1699992000000_m5n6b7v8c.mp4")
    = Some (File 1699992000000 "ftyp")
  ∧ a_time - 1699992000000 > twoHours
  ∧ stat app swept.1 (Path.join (DOWNLOADS_DIR app) "video_1699991000000_q1w2e3r4t.mp4/mkv")
    = Some (File 1699991000000 "matroska")
  ∧ a_time - 1699991000000 > twoHours.
Proof. vm_compute. repeat split. Qed.


(** The claim C3 fails on the streaming route: the child wrote to stderr
    and ended with code 1, and the [error] event does not carry what it
    wrote. *)
Lemma stream_failure_drops_stderr :
  let pre := [StderrData "ERROR: Unsupported URL"] in
  ¬ fails_with (failure_text pre (Some 1))
      (answer (download_stream app a_request a_time a_suffix
                 (pre ++ [ChildClose (Some 1)]) ∅)).
Proof.
  vm_compute. intros H. not_among H.
Qed.

(** An audio download whose child writes to stderr and ends with code 1. *)
Lemma exit_nonzero_reports_failure_witness :
  answer (post app DownloadAudio a_request a_time a_suffix
            [StderrData "ERROR: "; StderrData "Unsupported URL"; ChildClose (Some 1)] ∅)
  = failed "ERROR: Unsupported URL" "audio_1700007200001_k3j9x0a1b".
Proof.
  apply (exit_nonzero_reports_failure app DownloadAudio a_request a_time a_suffix
           [StderrData "ERROR: "; StderrData "Unsupported URL"] (Some 1) ∅
           "https://example.com/watch?v=1"); [reflexivity|reflexivity|discriminate].
Defined.

(** A request without a URL. *)
Lemma missing_url_rejected_witness :
  post app DownloadStream no_url a_time a_suffix [] ∅ = Outcome [] None url_required None
  ∧ info_query no_url (ExecError "") = Outcome [] None url_required None.
Proof.
  apply (missing_url_rejected app DownloadStream no_url a_time a_suffix [] ∅ (ExecError "")).
  left. reflexivity.
Defined.



(** The claim C7 fails: the answer has a [description], which is not in
    the list of the specification. *)
Lemma info_answer_has_description :
  ¬ (data_keys (answer (info_query a_request (ExecOk (Ok an_info)))) ⊆ spec_info_fields).
Proof.
  intros H. assert ("description" ∈ spec_info_fields) as Hin.
  { apply H. vm_compute. right. left. }
  unfold spec_info_fields in Hin. not_among Hin.
Qed.

(** An info query on an output that has a title, a description and one format. *)
Lemma info_projection_witness :
  data_keys (answer (info_query a_request (ExecOk (Ok an_info))))
  = ["title"; "description"; "formats"].
Proof.
  destruct (info_projection a_request (ExecOk (Ok an_info))
              (obj [("success", Some (JBool true));
                    ("data", Some (obj [("title", Some (JStr "Big Buck Bunny"));
                                        ("description", Some (JStr "A large rabbit"));
                                        ("formats",
                                         Some (JArr [obj [("format_id", Some (JStr "18"));
                                                          ("ext", Some (JStr "mp4"))]]))]))])
              eq_refl) as (v & Hv & _ & Hkeys).
  injection Hv as <-. exact Hkeys.
Defined.

(** The sweep of a store that has one file older than two hours. *)
Lemma sweep_retention_witness :
  ∃ fs', cleanupOldFiles app a_time a_store = (fs', None)
    ∧ existsSync app fs' (Path.join (DOWNLOADS_DIR app) "audio_1700000000000_zzzzzzzzz.mp3")
      = false.
Proof.
  destruct (sweep_retention app a_time a_store "audio_1700000000000_zzzzzzzzz.mp3"
              (File 1700000000000 "ID3")) as (fs' & Hrun & Hold & _).
  - reflexivity.
  - vm_compute. left.
  - reflexivity.
  - exists fs'. split; [exact Hrun|]. apply Hold. reflexivity.
Defined.

(** The claim C9 fails: the caller disconnects while the child runs, and
    the relay does not kill the child. *)
Lemma disconnect_leaves_child_running :
  let trace := [StdoutData "[download]  10.0%"; ClientGone] in
  gone (default ClientGone (last trace)) = true
  ∧ ChildKill ∉ effects (answer (download_stream app a_request a_time a_suffix trace ∅)).
Proof.
  split; [done|]. vm_compute. intros H. not_among H.
Qed.

(** ** The further properties at concrete inputs *)

(** A video download whose child writes once more after it has closed. *)
Lemma post_ignores_after_end_witness :
  post app Download a_request a_time a_suffix
    ([StdoutData "[download] 100%"] ++ ChildClose (Some 0) :: [StderrData "late"]) a_store
  = post app Download a_request a_time a_suffix
      ([StdoutData "[download] 100%"] ++ [ChildClose (Some 0)]) a_store.
Proof.
  apply (post_ignores_after_end app Download a_request a_time a_suffix
           [StdoutData "[download] 100%"] (ChildClose (Some 0)) [StderrData "late"] a_store);
    reflexivity.
Defined.

(** A video download whose child is still writing. *)
Lemma no_answer_while_child_runs_witness :
  answer (post app Download a_request a_time a_suffix
            [StdoutData "[download]  10.0%"; ClientGone] a_store) = NoReply.
Proof.
  exact (no_answer_while_child_runs app Download a_request a_time a_suffix
           [StdoutData "[download]  10.0%"; ClientGone] a_store
           "https://example.com/watch?v=1" eq_refl eq_refl).
Defined.

(** An audio download on a host without yt-dlp. *)
Lemma spawn_error_is_reported_witness :
  answer (post app DownloadAudio a_request a_time a_suffix
            ([] ++ ChildError "spawn yt-dlp ENOENT" :: [ChildClose (Some (-2))]) a_store)
  = failed "spawn yt-dlp ENOENT" "audio_1700007200001_k3j9x0a1b".
Proof.
  apply (spawn_error_is_reported app DownloadAudio a_request a_time a_suffix []
           "spawn yt-dlp ENOENT" [ChildClose (Some (-2))] a_store
           "https://example.com/watch?v=1"); [reflexivity|reflexivity|discriminate].
Defined.

(** The child of a streamed download. *)
Lemma download_launch_shape_witness :
  ∃ args,
    launched (post app DownloadStream a_request a_time a_suffix [] a_store)
    = [Spawn "yt-dlp" args]
    ∧ last args = Some "https://example.com/watch?v=1".
Proof.
  destruct (download_launch_shape app DownloadStream a_request a_time a_suffix [] a_store
              "https://example.com/watch?v=1" eq_refl eq_refl eq_refl eq_refl)
    as (args & Hl & _ & _ & Hlast & _); [repeat constructor|].
  exists args. split; [exact Hl|exact Hlast].
Defined.

(** The file of a video download that succeeded. *)
Lemma reported_file_can_be_fetched_witness :
  get_file app "video_1700007200001_k3j9x0a1b.mp4" true a_store
  = Attachment "video_1700007200001_k3j9x0a1b.mp4" "ftyp".
Proof.
  destruct (reported_file_can_be_fetched app Download a_request a_time a_suffix
              [ChildClose (Some 0)] a_store "video_1700007200001_k3j9x0a1b.mp4" true)
    as (_ & _ & _ & Hget); [reflexivity|].
  apply (Hget (File 1700000000001 "ftyp")); [reflexivity|reflexivity|].
  intros _. reflexivity.
Defined.

(** The audio file of the store, deleted. *)
Lemma delete_then_gone_witness :
  get_file app "audio_1700000000000_zzzzzzzzz.mp3" true
    (delete (Path.segs (Path.join (DOWNLOADS_DIR app) "audio_1700000000000_zzzzzzzzz.mp3"))
       a_store)
  = not_found.
Proof.
  exact (proj1 (proj2 (delete_then_gone app "audio_1700000000000_zzzzzzzzz.mp3" a_store
                         (File 1700000000000 "ID3") eq_refl)) true).
Defined.

(** A name with a directory in it, but no parent directory. *)
Lemma plain_name_stays_in_store_witness :
  Path.segs (DOWNLOADS_DIR app)
  `prefix_of` Path.segs (Path.join (DOWNLOADS_DIR app) "old/./a.mp4").
Proof.
  apply (plain_name_stays_in_store app "old/./a.mp4" a_store []).
  vm_compute. intros H. not_among H.
Defined.

(** Two sweeps of the store, one millisecond apart. *)
Lemma sweep_after_sweep_witness :
  ∃ fs1 fs2,
    cleanupOldFiles app a_time a_store = (fs1, None)
    ∧ cleanupOldFiles app (a_time + 1) a_store = (fs2, None)
    ∧ cleanupOldFiles app (a_time + 1) fs1 = (fs2, None).
Proof.
  apply (sweep_after_sweep app a_time (a_time + 1) a_store); [discriminate|reflexivity].
Defined.


(** The audio file of the store, deleted and listed. *)
Lemma delete_updates_listing_witness :
  status_of (delete_file app "audio_1700000000000_zzzzzzzzz.mp3" a_store).1 = Some 200.
Proof.
  pose proof (delete_updates_listing app a_request a_birthtime a_store
                "audio_1700000000000_zzzzzzzzz.mp3" "") as Hdelete.
  assert (node_at app a_store
            (Path.join (DOWNLOADS_DIR app) "audio_1700000000000_zzzzzzzzz.mp3")
          = Some (Regular (File 1700000000000 "ID3"))) as Hnode by (vm_compute; reflexivity).
  rewrite Hnode in Hdelete. apply Hdelete. vm_compute. left.
Defined.

(** The listing of the store after its sweep. *)
Lemma sweep_updates_listing_witness :
  ∃ fs', cleanupOldFiles app a_time a_store = (fs', None)
    ∧ "video_1700007200001_k3j9x0a1b.mp4"
      ∈ listed_names (list_files app a_request a_birthtime fs').
Proof.
  destruct (sweep_updates_listing app a_request a_birthtime a_time a_store)
    as (fs' & Hrun & Hlist); [reflexivity|].
  exists fs'. split; [exact Hrun|]. apply Hlist.
  exists (Regular (File 1700000000001 "ftyp")).
  split; [vm_compute; right; left|]. split; [reflexivity|discriminate].
Defined.

(** The output file of a video download. *)
Lemma output_file_is_an_entry_witness :
  Path.join (DOWNLOADS_DIR app) (output_name Download a_request a_time a_suffix)
  = Path.Make (Path.segs (DOWNLOADS_DIR app)
               ++ [output_name Download a_request a_time a_suffix]) false.
Proof.
  apply (output_file_is_an_entry app Download a_request a_time a_suffix [] a_store
           "https://example.com/watch?v=1"); [reflexivity|reflexivity|].
  intros _. reflexivity.
Defined.

(** A video download with a format that climbs out of the store. *)
Lemma format_leaves_store_witness :
  ¬ (Path.segs (DOWNLOADS_DIR app) `prefix_of` ["app"; "server.js"]).
Proof.
  apply (format_leaves_store app Download a_climbing_request a_time a_suffix [] a_store
           "https://example.com/watch?v=1");
    [reflexivity|reflexivity|discriminate|reflexivity].
Defined.

Example health_without_yt_dlp :
  health (Throw "Command failed: yt-dlp --version") "2023-11-15T00:13:20.001Z"
  = Outcome [Exec "yt-dlp --version"] None
      (Json 200 (obj [("success", Some (JBool true));
                      ("message", Some (JStr "API is running"));
                      ("ytdlpInstalled", Some (JBool false));
                      ("timestamp", Some (JStr "2023-11-15T00:13:20.001Z"))]))
      None.
Proof. reflexivity. Qed.

Example listing_of_a_store :
  listed_names (list_files app a_request a_birthtime a_store)
  = ["audio_1700000000000_zzzzzzzzz.mp3"; "video_1700007200001_k3j9x0a1b.mp4"]
  ∧ entry_of app a_request a_birthtime "a.mp4" (Regular (File 0 "ftyp"))
    = JObj [("name", JStr "a.mp4"); ("size", JNum "4");
            ("created", JStr "2023-11-14T22:13:20.000Z");
            ("downloadUrl", JStr "http://localhost:3000/api/file/a.mp4")].
Proof. vm_compute. repeat split. Qed.

(** ** The handlers on small inputs *)

Example join_climbs :
  Path.join (DOWNLOADS_DIR app) "../../etc//./passwd" = Path.Make ["etc"; "passwd"] false
  ∧ Path.join (DOWNLOADS_DIR app) "a/" = Path.Make ["app"; "downloads"; "a"] true
  ∧ Path.render (Path.join (DOWNLOADS_DIR app) "video_1_x.mp4")
    = "/app/downloads/video_1_x.mp4".
Proof. vm_compute. repeat split. Qed.

Example sweep_of_a_store :
  readdirSync a_store (DOWNLOADS_DIR app)
  = ["audio_1700000000000_zzzzzzzzz.mp3"; "video_1700007200001_k3j9x0a1b.mp4"]
  ∧ readdirSync (cleanupOldFiles app a_time a_store).1 (DOWNLOADS_DIR app)
    = ["video_1700007200001_k3j9x0a1b.mp4"]
  ∧ (cleanupOldFiles app a_time a_store).2 = None.
Proof. vm_compute. repeat split. Qed.

Example stream_of_a_download :
  answer (download_stream app a_request a_time a_suffix
            [StderrData "WARNING: slow"; StdoutData "[download] 100%"; ChildClose (Some 0)]
            a_store)
  = Stream [ResWrite (log_frame "WARNING: slow");
            ResWrite (progress_frame "[download] 100%");
            ResWrite (complete_frame "video_1700007200001_k3j9x0a1b.mp4"
                        "http://localhost:3000/api/file/video_1700007200001_k3j9x0a1b.mp4");
            ResEnd].
Proof. vm_compute. repeat split. Qed.

Example video_killed_by_signal :
  answer (download app a_request a_time a_suffix [ChildClose None] a_store)
  = failed "Process exited with code null" "video_1700007200001_k3j9x0a1b".
Proof. vm_compute. repeat split. Qed.

Example info_of_null :
  answer (info_query a_request (ExecOk (Ok JNull)))
  = Json 500 (obj [("success", Some (JBool false));
                   ("error", Some (JStr "Cannot read properties of null (reading 'title')"))]).
Proof. vm_compute. repeat split. Qed.

Example file_that_is_not_there :
  get_file app "video_0_none.mp4" true a_store = not_found
  ∧ (delete_file app "video_0_none.mp4" a_store).1 = not_found.
Proof. vm_compute. repeat split. Qed.

(** ** Directories and hidden files *)

(** A directory among the entries is listed with the size that [stat]
    reports for it; GET on its name fails, DELETE on its name fails with
    the error of [unlink], and the file in it is sent. *)
Example folder_in_the_store :
  listed_names (list_files app a_request a_birthtime a_store_with_folder)
  = ["video_1699991000000_q1w2e3r4t.mp4"; "video_1699992000000_m5n6b7v8c.mp4"]
  ∧ file_entry app a_request a_birthtime a_store_with_folder
      "video_1699991000000_q1w2e3r4t.mp4"
    = Ok (JObj [("name", JStr "video_1699991000000_q1w2e3r4t.mp4"); ("size", JNum "4096");
                ("created", JStr "2023-11-14T22:13:20.000Z");
                ("downloadUrl",
                 JStr "http://localhost:3000/api/file/video_1699991000000_q1w2e3r4t.mp4")])
  ∧ get_file app "video_1699991000000_q1w2e3r4t.mp4" true a_store_with_folder
    = download_failed
  ∧ (delete_file app "video_1699991000000_q1w2e3r4t.mp4" a_store_with_folder).1
    = Json 500 (obj [("success", Some (JBool false));
                     ("error",
                      Some (JStr ("EISDIR: illegal operation on a directory, "
                                  +:+ "unlink '/app/downloads/video_1699991000000_q1w2e3r4t.mp4'")))])
  ∧ get_file app "video_1699991000000_q1w2e3r4t.mp4/mkv" true a_store_with_folder
    = Attachment "video_1699991000000_q1w2e3r4t.mp4/mkv" "matroska".
Proof. vm_compute. repeat split. Qed.

(** The downloads directory itself is always there: a video download
    whose format is [/..] tests the directory and answers with a success,
    and GET and DELETE on the name [.] find a directory. *)
Example downloads_directory_exists :
  answer (download app a_parent_request a_time a_suffix [ChildClose (Some 0)] ∅)
  = Json 200
      (obj [("success", Some (JBool true)); ("message", Some (JStr "Download completed"));
            ("jobId", Some (JStr "video_1700007200001_k3j9x0a1b"));
            ("fileName", Some (JStr "video_1700007200001_k3j9x0a1b./.."));
            ("downloadUrl",
             Some (JStr "http://localhost:3000/api/file/video_1700007200001_k3j9x0a1b./.."))])
  ∧ get_file app "." true ∅ = download_failed
  ∧ (delete_file app "." ∅).1
    = Json 500 (obj [("success", Some (JBool false));
                     ("error",
                      Some (JStr ("EISDIR: illegal operation on a directory, "
                                  +:+ "unlink '/app/downloads'")))]).
Proof. vm_compute. repeat split. Qed.

(** The stores of the examples are file systems as the server can meet
    them; a file whose directory has no node is not. *)
Example stores_are_well_formed :
  well_formed app ∅ = true
  ∧ well_formed app a_store = true
  ∧ well_formed app a_store_with_folder = true
  ∧ well_formed app a_hidden_store = true
  ∧ well_formed app (<[ ["app"; "downloads"; "old"; "a.mp4"] := File 0 "ftyp" ]> ∅) = false.
Proof. vm_compute. repeat split. Qed.

(** A file whose name begins with a dot is listed, and GET does not send
    it. *)
Example hidden_file_is_not_sent :
  listed_names (list_files app a_request a_birthtime a_hidden_store) = [".gitkeep"]
  ∧ get_file app ".gitkeep" true a_hidden_store = download_failed.
Proof. vm_compute. repeat split. Qed.

(** The output path of a video download with the format [mp4/mkv] is a
    file in a directory of the downloads directory. *)
Example two_formats_make_a_directory :
  ∃ before after,
    launched (download app a_two_format_request 1699991000000 "q1w2e3r4t" [] ∅)
    = [Spawn "yt-dlp"
         (before ++ ["-o"; "/app/downloads/video_1699991000000_q1w2e3r4t.mp4/mkv"] ++ after)].
Proof. by eexists [_; _; _; _], [_; _]. Qed.
